(** * Ames-housing regression notebook: data cleaning, feature encoding and
      the diagnostic-test runner of [lab1/additional_excercise.ipynb].

    The notebook is a straight-line Python program over pandas, scikit-learn
    and statsmodels.  The embedding follows the cells of the notebook: every
    definition below names the cell (or the library call made in that cell)
    that it transcribes.  Numbers are exact rationals unless a definition is
    explicitly instantiated at binary64. *)

From Stdlib Require Import List String Ascii Bool Arith Lia.
From Stdlib Require Import ZArith QArith Lqa Qfield.
From Stdlib Require Import Permutation Sorted PrimFloat.
Import ListNotations.
Local Open Scope string_scope.
Local Open Scope list_scope.
Local Open Scope nat_scope.

(** ** Python results: a value, or a raised exception *)

Module Py.

(** The exception classes the modelled calls can raise, with the labels or
    the message they carry. *)
Inductive exn : Type :=
| KeyError (labels : list string)
| TypeError (msg : string)
| ValueError (msg : string)
| OtherError (msg : string).

Inductive result (A : Type) : Type :=
| Ok (a : A)
| Raise (e : exn).
Arguments Ok {A} a.
Arguments Raise {A} e.

Definition bind {A B} (r : result A) (k : A -> result B) : result B :=
  match r with
  | Ok a => k a
  | Raise e => Raise e
  end.

(** [str(e)]: the text [print(e)] writes for an exception that carries its
    message, which is what the statistical tests raise.  For a [KeyError]
    Python writes the [repr] of the argument instead; the text given for it
    here is the bare message of [df.drop], not what [print] would show, and
    no cell of the notebook prints a [KeyError] of the frame. *)
Definition str_exn (e : exn) : string :=
  match e with
  | KeyError labels => "[" ++ String.concat ", " labels ++ "] not found in axis"
  | TypeError msg => msg
  | ValueError msg => msg
  | OtherError msg => msg
  end.

End Py.
Import Py.

Notation "x <- r ;; k" := (Py.bind r (fun x => k))
  (at level 61, r at next level, right associativity).

(** ** pandas: cells, series and frames *)

Module Frame.

(** One entry of a column: a number, a string, or the missing value. *)
Inductive cell : Type :=
| Num (q : Q)
| Str (s : string)
| NaN.

Definition series := list cell.

(** A frame is stored by columns, in column order, as pandas does. *)
Definition DataFrame := list (string * series).

(** Python's [==] between two scalars of a column: numbers compare by value,
    strings by content, a number never equals a string, and the missing
    value equals nothing (not even itself). *)
Definition cell_eqb (a b : cell) : bool :=
  match a, b with
  | Num p, Num q => Qeq_bool p q
  | Str s, Str t => String.eqb s t
  | _, _ => false
  end.

Definition isna (c : cell) : bool :=
  match c with
  | NaN => true
  | _ => false
  end.

Definition has_column (name : string) (df : DataFrame) : bool :=
  existsb (fun col => String.eqb (fst col) name) df.

(** [df[name]] on a frame whose labels are distinct, as [read_csv] makes
    them: the column with that label, a [KeyError] when there is none.  On a
    label that occurs twice pandas gives a two-column frame, not a series;
    that case is not modelled, and this function then gives the first
    column. *)
Fixpoint getitem (name : string) (df : DataFrame) : result series :=
  match df with
  | [] => Raise (KeyError [name])
  | (n, s) :: rest => if String.eqb n name then Ok s else getitem name rest
  end.

(** [df.drop(labels, axis="columns")]: every label must be a column. *)
Definition drop (labels : list string) (df : DataFrame) : result DataFrame :=
  match filter (fun l => negb (has_column l df)) labels with
  | [] => Ok (filter (fun col => negb (existsb (String.eqb (fst col)) labels)) df)
  | missing => Raise (KeyError missing)
  end.

(** [s.isin(values)] *)
Definition isin (values : list cell) (s : series) : list bool :=
  map (fun c => existsb (fun v => cell_eqb v c || (isna v && isna c)) values) s.

(** [~mask] *)
Definition invert (mask : list bool) : list bool := map negb mask.

Definition Qltb (p q : Q) : bool := negb (Qle_bool q p).

(** [s < bound]: a missing entry compares false; a string entry cannot be
    ordered against a number. *)
Fixpoint lt_scalar (s : series) (bound : Q) : result (list bool) :=
  match s with
  | [] => Ok []
  | c :: rest =>
      b <- match c with
           | Num q => Ok (Qltb q bound)
           | NaN => Ok false
           | Str _ => Raise (TypeError "'<' not supported between instances of 'str' and 'int'")
           end ;;
      bs <- lt_scalar rest bound ;;
      Ok (b :: bs)
  end.

(** The entries of a column at the rows where the mask is set. *)
Definition select (mask : list bool) (s : series) : series :=
  map snd (filter fst (combine mask s)).

(** [df.loc[mask, :]] *)
Definition loc_rows (mask : list bool) (df : DataFrame) : DataFrame :=
  map (fun col => (fst col, select mask (snd col))) df.

(** [s.fillna(value)] *)
Definition fillna (value : cell) (s : series) : series :=
  map (fun c => if isna c then value else c) s.

(** [s.replace(to_replace_keys, values)] on one column: every key is
    compared with the original entry (pandas builds all masks before it
    substitutes), and the substitutions are applied in key order. *)
Definition replace_cell (pairs : list (cell * cell)) (c : cell) : cell :=
  fold_left (fun cur p => if cell_eqb (fst p) c then snd p else cur) pairs c.

Definition replace_list (pairs : list (cell * cell)) (s : series) : series :=
  map (replace_cell pairs) s.

Fixpoint lookup {V} (name : string) (d : list (string * V)) : option V :=
  match d with
  | [] => None
  | (k, v) :: rest => if String.eqb k name then Some v else lookup name rest
  end.

(** [df.replace({column: {old: new}})]: a column named in the outer dict is
    rewritten with its own inner dict, a column of the frame that the dict
    does not name is kept, and a dict entry for no column is ignored. *)
Definition replace_column (to_replace : list (string * list (cell * cell)))
    (col : string * series) : string * series :=
  match lookup (fst col) to_replace with
  | Some pairs => (fst col, replace_list pairs (snd col))
  | None => col
  end.

Definition replace (to_replace : list (string * list (cell * cell)))
    (df : DataFrame) : DataFrame :=
  map (replace_column to_replace) df.

(** A Python dict has no two equal keys. *)
Fixpoint distinct_keys (pairs : list (cell * cell)) : bool :=
  match pairs with
  | [] => true
  | kv :: rest =>
      forallb (fun kv' => negb (cell_eqb (fst kv) (fst kv'))) rest
      && distinct_keys rest
  end.

(** No new value of the dict is itself one of its keys. *)
Definition values_not_keys (pairs : list (cell * cell)) : bool :=
  forallb (fun kv => forallb (fun kv' => negb (cell_eqb (fst kv') (snd kv))) pairs)
          pairs.

Definition values_not_missing (pairs : list (cell * cell)) : bool :=
  forallb (fun kv => negb (isna (snd kv))) pairs.

(** Every column has [n] entries. *)
Definition rectangular (n : nat) (df : DataFrame) : bool :=
  forallb (fun col => Nat.eqb (List.length (snd col)) n) df.

End Frame.
Import Frame.

(** ** Section 1 of the notebook: cleaning and missing values *)

Module Cleaner.

(** The assignment [df.loc[:, col] = filled], seen from one column of the
    frame: the column labelled [col] takes the filled entries. *)
Definition fill_column (col : string) (value : cell) (c : string * series)
    : string * series :=
  if String.eqb (fst c) col then (fst c, fillna value (snd c)) else c.

(** Cell 7. *)
Definition replace_na (df : DataFrame) (col : string) (value : cell)
    : result DataFrame :=
  _ <- getitem col df ;;
  Ok (map (fill_column col value) df).

Definition int0 : cell := Num 0.
(** Cell 8, in insertion order.  The literal lists "SaleCondition" twice
    with the same value; a Python dict keeps one entry, at the first
    position. *)
Definition default_values : list (string * cell) :=
  [ ("Alley", Str "None"); ("BedroomAbvGr", int0); ("BsmtQual", Str "No");
    ("BsmtCond", Str "No"); ("BsmtExposure", Str "No");
    ("BsmtFinType1", Str "No"); ("BsmtFinType2", Str "No");
    ("BsmtFullBath", int0); ("BsmtHalfBath", int0); ("BsmtUnfSF", int0);
    ("Condition1", Str "Norm"); ("Condition2", Str "Norm");
    ("ExterCond", Str "TA"); ("ExterQual", Str "TA"); ("Fence", Str "No");
    ("Functional", Str "Typ"); ("GarageType", Str "No");
    ("GarageFinish", Str "No"); ("GarageQual", Str "No");
    ("GarageCond", Str "No"); ("GarageArea", int0); ("GarageCars", int0);
    ("HalfBath", int0); ("HeatingQC", Str "Ta"); ("KitchenAbvGr", int0);
    ("KitchenQual", Str "TA"); ("LotFrontage", int0); ("LotShape", Str "Reg");
    ("MasVnrType", Str "None"); ("MasVnrArea", int0); ("MiscFeature", Str "No");
    ("MiscVal", int0); ("OpenPorchSF", int0); ("PavedDrive", Str "N");
    ("PoolQC", Str "No"); ("PoolArea", int0); ("SaleCondition", Str "Normal");
    ("ScreenPorch", int0); ("TotRmsAbvGrd", int0); ("Utilities", Str "AllPub");
    ("WoodDeckSF", int0); ("CentralAir", int0); ("EnclosedPorch", int0);
    ("FireplaceQu", int0); ("Fireplaces", int0) ].

(** Cell 9: [for column, value in default_values.items(): replace_na(...)]. *)
Fixpoint fill_defaults (defaults : list (string * cell)) (df : DataFrame)
    : result DataFrame :=
  match defaults with
  | [] => Ok df
  | (column, value) :: rest =>
      df' <- replace_na df column value ;;
      fill_defaults rest df'
  end.

(** What the loop of cell 9 does to one column when no lookup fails. *)
Definition fill_with (defaults : list (string * cell)) (c : string * series)
    : string * series :=
  fold_left (fun c kv => fill_column (fst kv) (snd kv) c) defaults c.

Definition codes (inner : list (Z * string)) : list (cell * cell) :=
  map (fun kv => (Num (inject_Z (fst kv)), Str (snd kv))) inner.

Definition levels (inner : list (string * Z)) : list (cell * cell) :=
  map (fun kv => (Str (fst kv), Num (inject_Z (snd kv)))) inner.

(** Cell 10: the nested dict given to [df.replace]. *)
Definition recoding : list (string * list (cell * cell)) :=
  [ ("MSSubClass",
      codes [ (20, "SC20"); (30, "SC30"); (40, "SC40"); (45, "SC45");
              (50, "SC50"); (60, "SC60"); (70, "SC70"); (75, "SC75");
              (80, "SC80"); (85, "SC85"); (90, "SC90"); (120, "SC120");
              (150, "SC150"); (160, "SC160"); (180, "SC180");
              (190, "SC190") ]%Z);
    ("MoSold",
      codes [ (1, "Jan"); (2, "Feb"); (3, "Mar"); (4, "Apr"); (5, "May");
              (6, "Jun"); (7, "Jul"); (8, "Aug"); (9, "Sep"); (10, "Oct");
              (11, "Nov"); (12, "Dec") ]%Z);
    ("Alley", levels [("None", 0); ("Grvl", 1); ("Pave", 2)]%Z);
    ("BsmtCond",
      levels [("No", 0); ("Po", 1); ("Fa", 2); ("TA", 3); ("Gd", 4);
              ("Ex", 5)]%Z);
    ("BsmtExposure", levels [("No", 0); ("Mn", 1); ("Av", 2); ("Gd", 3)]%Z);
    ("BsmtFinType1",
      levels [("No", 0); ("Unf", 1); ("LwQ", 2); ("Rec", 3); ("BLQ", 4);
              ("ALQ", 5); ("GLQ", 6)]%Z);
    ("BsmtFinType2",
      levels [("No", 0); ("Unf", 1); ("LwQ", 2); ("Rec", 3); ("BLQ", 4);
              ("ALQ", 5); ("GLQ", 6)]%Z);
    ("BsmtQual",
      levels [("No", 0); ("Po", 1); ("Fa", 2); ("TA", 3); ("Gd", 4);
              ("Ex", 5)]%Z);
    ("ExterCond",
      levels [("Po", 1); ("Fa", 2); ("TA", 3); ("Gd", 4); ("Ex", 5)]%Z);
    ("ExterQual",
      levels [("Po", 1); ("Fa", 2); ("TA", 3); ("Gd", 4); ("Ex", 5)]%Z);
    ("FireplaceQu",
      levels [("No", 0); ("Po", 1); ("Fa", 2); ("TA", 3); ("Gd", 4);
              ("Ex", 5)]%Z);
    ("Functional",
      levels [("Sal", 1); ("Sev", 2); ("Maj2", 3); ("Maj1", 4); ("Mod", 5);
              ("Min2", 6); ("Min1", 7); ("Typ", 8)]%Z);
    ("GarageCond",
      levels [("No", 0); ("Po", 1); ("Fa", 2); ("TA", 3); ("Gd", 4);
              ("Ex", 5)]%Z);
    ("GarageQual",
      levels [("No", 0); ("Po", 1); ("Fa", 2); ("TA", 3); ("Gd", 4);
              ("Ex", 5)]%Z);
    ("HeatingQC",
      levels [("Po", 1); ("Fa", 2); ("TA", 3); ("Gd", 4); ("Ex", 5)]%Z);
    ("KitchenQual",
      levels [("Po", 1); ("Fa", 2); ("TA", 3); ("Gd", 4); ("Ex", 5)]%Z);
    ("LandSlope", levels [("Sev", 1); ("Mod", 2); ("Gtl", 3)]%Z);
    ("LotShape",
      levels [("IR3", 1); ("IR2", 2); ("IR1", 3); ("Reg", 4)]%Z);
    ("PavedDrive", levels [("N", 0); ("P", 1); ("Y", 2)]%Z);
    ("PoolQC",
      levels [("No", 0); ("Fa", 1); ("TA", 2); ("Gd", 3); ("Ex", 4)]%Z);
    ("Street", levels [("Grvl", 0); ("Pave", 1)]%Z);
    ("Utilities",
      levels [("ELO", 1); ("NoSeWa", 2); ("NoSewr", 3); ("AllPub", 4)]%Z) ].

Definition excluded_neighborhoods : list cell := [Str "GrnHill"; Str "Landmrk"].
Definition living_area_bound : Q := 4000%Q.

(** The two row tests of cell 5, entry by entry. *)
Definition keeps_neighborhood (c : cell) : bool :=
  negb (existsb (fun v => cell_eqb v c || (isna v && isna c)) excluded_neighborhoods).

Definition below_bound (c : cell) : bool :=
  match c with
  | Num q => Qltb q living_area_bound
  | _ => false
  end.

(** Cell 5, first line. *)
Definition drop_identifiers (df : DataFrame) : result DataFrame :=
  drop ["Order"; "PID"] df.

(** Cell 5, second and third lines. *)
Definition drop_outliers (df : DataFrame) : result DataFrame :=
  neighborhood <- getitem "Neighborhood" df ;;
  let df := loc_rows (invert (isin excluded_neighborhoods neighborhood)) df in
  area <- getitem "GrLivArea" df ;;
  mask <- lt_scalar area living_area_bound ;;
  Ok (loc_rows mask df).

(** Cells 9 and 10 after the row filters: what the cleaner does once the
    identifier columns are gone. *)
Definition clean_rows_and_values (df : DataFrame) : result DataFrame :=
  df <- drop_outliers df ;;
  df <- fill_defaults default_values df ;;
  Ok (replace recoding df).

(** Cells 5, 9 and 10 in order. *)
Definition clean (df : DataFrame) : result DataFrame :=
  df <- drop_identifiers df ;;
  clean_rows_and_values df.

End Cleaner.
Import Cleaner.

(** ** Section 1.3 of the notebook: the column transformer *)

Module Transformer.

(** The arithmetic the numerical pipeline uses.  scikit-learn runs it on
    binary64; the laws of the scaler are stated over exact rationals. *)
Class Number (A : Type) : Type := {
  num_zero : A;
  num_one : A;
  num_add : A -> A -> A;
  num_sub : A -> A -> A;
  num_mul : A -> A -> A;
  num_div : A -> A -> A;
  num_lt : A -> A -> bool;
  (** [10 * numpy.finfo(float64).eps] *)
  num_ten_eps : A
}.

#[export] Instance rational : Number Q := {|
  num_zero := 0%Q;
  num_one := 1%Q;
  num_add := Qplus;
  num_sub := Qminus;
  num_mul := Qmult;
  num_div := Qdiv;
  num_lt := Qltb;
  num_ten_eps := (10 # 4503599627370496)%Q
|}.

#[export] Instance binary64 : Number float := {|
  num_zero := 0%float;
  num_one := 1%float;
  num_add := PrimFloat.add;
  num_sub := PrimFloat.sub;
  num_mul := PrimFloat.mul;
  num_div := PrimFloat.div;
  num_lt := PrimFloat.ltb;
  num_ten_eps := 0x1.4p-49%float
|}.

(** The selection [ColumnTransformer] is given: the columns of dtype other
    than [object] (entries may be missing) and the columns of dtype [object],
    whose entries are strings. *)
Record Features (A : Type) : Type := {
  numerical : list (list (option A));
  categorical : list (list string)
}.
Arguments numerical {A} f.
Arguments categorical {A} f.

Definition n_samples {A} (X : Features A) : nat :=
  match numerical X, categorical X with
  | col :: _, _ => List.length col
  | [], col :: _ => List.length col
  | [], [] => 0
  end.

(** Every selected column has one entry per row. *)
Definition well_shaped {A} (X : Features A) : bool :=
  forallb (fun c => Nat.eqb (List.length c) (n_samples X)) (numerical X)
  && forallb (fun c => Nat.eqb (List.length c) (n_samples X)) (categorical X).

Section Pipelines.
Context {A : Type} `{Number A}.

Definition num_min (a b : A) : A := if num_lt b a then b else a.
Definition num_max (a b : A) : A := if num_lt a b then b else a.

(** *** [SimpleImputer(strategy="median")] *)

Definition observed (col : list (option A)) : list A :=
  flat_map (fun o => match o with Some x => [x] | None => [] end) col.

Fixpoint insert_sorted (x : A) (l : list A) : list A :=
  match l with
  | [] => [x]
  | y :: rest => if num_lt x y then x :: l else y :: insert_sorted x rest
  end.

Definition sort_values (l : list A) : list A := fold_right insert_sorted [] l.

(** [numpy.median]: the middle element, or the mean of the two middle
    ones; nothing for a column with no observed value. *)
Definition median (l : list A) : option A :=
  let s := sort_values l in
  let n := List.length s in
  if Nat.odd n then nth_error s (n / 2)
  else match nth_error s (n / 2 - 1), nth_error s (n / 2) with
       | Some a, Some b => Some (num_div (num_add a b) (num_add num_one num_one))
       | _, _ => None
       end.

Definition imputer_fit (cols : list (list (option A))) : list (option A) :=
  map (fun col => median (observed col)) cols.

Definition fill_missing (statistic : A) (col : list (option A)) : list A :=
  map (fun o => match o with Some x => x | None => statistic end) col.

(** A column whose statistic is missing (nothing was observed at fit
    time) is dropped from the output. *)
Definition imputer_transform (statistics : list (option A))
    (cols : list (list (option A))) : list (list A) :=
  flat_map (fun sc => match fst sc with
                      | Some m => [fill_missing m (snd sc)]
                      | None => []
                      end) (combine statistics cols).

(** *** [MinMaxScaler()], feature range (0, 1), no clipping *)

Record Scaling : Type := { scale_ : A; min_ : A }.

Definition data_min (col : list A) : A :=
  match col with
  | [] => num_zero
  | x :: rest => fold_left num_min rest x
  end.

Definition data_max (col : list A) : A :=
  match col with
  | [] => num_zero
  | x :: rest => fold_left num_max rest x
  end.

(** [_handle_zeros_in_scale]: a (nearly) constant column is scaled by 1. *)
Definition handle_zeros_in_scale (data_range : A) : A :=
  if num_lt data_range num_ten_eps then num_one else data_range.

Definition scaler_fit_column (col : list A) : Scaling :=
  let data_range := num_sub (data_max col) (data_min col) in
  let scale := num_div (num_sub num_one num_zero)
                       (handle_zeros_in_scale data_range) in
  {| scale_ := scale;
     min_ := num_sub num_zero (num_mul (data_min col) scale) |}.

Definition scaler_fit (cols : list (list A)) : list Scaling :=
  map scaler_fit_column cols.

(** [X *= scale_; X += min_] *)
Definition scaler_transform_column (p : Scaling) (col : list A) : list A :=
  map (fun x => num_add (num_mul x (scale_ p)) (min_ p)) col.

Definition scaler_transform (ps : list Scaling) (cols : list (list A))
    : list (list A) :=
  map (fun pc => scaler_transform_column (fst pc) (snd pc)) (combine ps cols).

(** *** [OneHotEncoder(drop="first", handle_unknown="ignore")] *)

Fixpoint insert_string (v : string) (l : list string) : list string :=
  match l with
  | [] => [v]
  | c :: rest => if String.leb v c then v :: l else c :: insert_string v rest
  end.

(** [categories_] of one column: the distinct observed values, sorted. *)
Definition categories (col : list string) : list string :=
  fold_right insert_string [] (nodup string_dec col).

Fixpoint index_of (v : string) (cats : list string) : option nat :=
  match cats with
  | [] => None
  | c :: rest => if String.eqb c v then Some 0
                 else option_map S (index_of v rest)
  end.

Definition indicator (width : nat) (hot : option nat) : list A :=
  map (fun j => match hot with
                | Some i => if Nat.eqb i j then num_one else num_zero
                | None => num_zero
                end) (seq 0 width).

(** The indicator entries of one value: an unknown value and the dropped
    first category give all zeros; category [i + 1] sets entry [i]. *)
Definition encode (cats : list string) (v : string) : list A :=
  let width := List.length cats - 1 in
  match index_of v cats with
  | None => indicator width None
  | Some 0 => indicator width None
  | Some (S i) => indicator width (Some i)
  end.

(** The block of one categorical variable, by columns. *)
Definition encoder_transform_column (cats : list string) (col : list string)
    : list (list A) :=
  map (fun j => map (fun v => nth j (encode cats v) num_zero) col)
      (seq 0 (List.length cats - 1)).

Definition encoder_fit (cols : list (list string)) : list (list string) :=
  map categories cols.

Definition encoder_transform (cats : list (list string))
    (cols : list (list string)) : list (list A) :=
  flat_map (fun cc => encoder_transform_column (fst cc) (snd cc))
           (combine cats cols).

(** Row [i] of a block that is kept by columns. *)
Definition row_of (block : list (list A)) (i : nat) : list A :=
  map (fun c => nth i c num_zero) block.

(** *** The two pipelines and [ColumnTransformer] (cells 14 and 15) *)

Record Fitted : Type := {
  statistics_ : list (option A);
  scalings_ : list Scaling;
  categories_ : list (list string)
}.

(** [column_transformer.fit(df, y)]; the target is not read.  Fitting
    needs at least one row. *)
Definition column_transformer_fit (X : Features A) : result Fitted :=
  if Nat.eqb (n_samples X) 0
  then Raise (ValueError "Found array with 0 sample(s) while a minimum of 1 is required.")
  else
    let stats := imputer_fit (numerical X) in
    Ok {| statistics_ := stats;
          scalings_ := scaler_fit (imputer_transform stats (numerical X));
          categories_ := encoder_fit (categorical X) |}.

Definition numerical_block (F : Fitted) (X : Features A) : list (list A) :=
  scaler_transform (scalings_ F) (imputer_transform (statistics_ F) (numerical X)).

Definition categorical_block (F : Fitted) (X : Features A) : list (list A) :=
  encoder_transform (categories_ F) (categorical X).

(** [column_transformer.transform(df)]: the numerical block, then the
    one-hot block; the matrix is kept by columns. *)
Definition column_transformer_transform (F : Fitted) (X : Features A)
    : list (list A) :=
  numerical_block F X ++ categorical_block F X.

End Pipelines.

(** An indicator entry that is set. *)
Definition is_set (x : Q) : bool := Qeq_bool x 1.

End Transformer.
Import Transformer.

(** ** Section 2 of the notebook: the model and its diagnostics *)

Module Diagnostics.

(** A design matrix, kept by columns. *)
Definition matrix := list (list Q).

(** [df.shape[0]] *)
Definition n_rows (x : matrix) : nat :=
  match x with
  | col :: _ => List.length col
  | [] => 0
  end.

(** [sm.OLS(endog, exog, hasconst=...)]: the model keeps the regressors it
    is given; [hasconst] only records what the caller says about them. *)
Record OLSModel : Type := OLS {
  endog : list Q;
  exog : matrix;
  hasconst : bool
}.

Record RegressionResults : Type := {
  model : OLSModel;
  params : list Q;
  resid : list Q
}.

Definition add_scaled (acc : list Q) (b : Q) (col : list Q) : list Q :=
  map (fun ax => (fst ax + b * snd ax)%Q) (combine acc col).

(** [exog @ params] *)
Definition predict (x : matrix) (beta : list Q) (n : nat) : list Q :=
  fold_left (fun acc bc => add_scaled acc (fst bc) (snd bc))
            (combine beta x) (repeat 0%Q n).

Section Fit.
(** The least-squares solver ([numpy.linalg.pinv] in statsmodels). *)
Variable lstsq : matrix -> list Q -> list Q.

(** [.fit()] *)
Definition fit (m : OLSModel) : RegressionResults :=
  let beta := lstsq (exog m) (endog m) in
  {| model := m;
     params := beta;
     resid := map (fun yp => (fst yp - snd yp)%Q)
                  (combine (endog m)
                           (predict (exog m) beta (List.length (endog m)))) |}.
End Fit.

(** *** statsmodels: the check at the head of the heteroskedasticity tests *)

(** [x.max(axis=0)] and [x.min(axis=0)]; numpy has no maximum of a column
    without entries. *)
Fixpoint column_extremes (x : matrix) : option (list (Q * Q)) :=
  match x with
  | [] => Some []
  | col :: rest =>
      match col, column_extremes rest with
      | _ :: _, Some ext => Some ((data_max col, data_min col) :: ext)
      | _, _ => None
      end
  end.

(** A column passes for the constant when its maximum equals its minimum
    and is not zero. *)
Definition is_constant_column (e : Q * Q) : bool :=
  Qeq_bool (fst e - snd e) 0 && negb (Qeq_bool (fst e) 0).

Definition het_message (test_name : string) : string :=
  test_name ++ " test requires exog to have at least two columns where one is a constant.".

(** [_check_het_test(x, test_name)] *)
Definition check_het_test (x : matrix) (test_name : string) : result unit :=
  match column_extremes x with
  | None =>
      Raise (ValueError "zero-size array to reduction operation maximum which has no identity")
  | Some ext =>
      if negb (existsb is_constant_column ext) || Nat.ltb (List.length x) 2
      then Raise (ValueError (het_message test_name))
      else Ok tt
  end.

(** *** Standard output *)

(** A command that prints: from the text printed so far to a result and
    the text printed after it. *)
Definition io (A : Type) : Type := string -> result A * string.

Definition io_bind {A B} (c : io A) (k : A -> io B) : io B :=
  fun out => match c out with
             | (Ok a, out') => k a out'
             | (Raise e, out') => (Raise e, out')
             end.

Definition call {A} (r : result A) : io A := fun out => (r, out).

Definition nl : string := String (ascii_of_nat 10) EmptyString.

(** [print(text)] *)
Definition print (text : string) : io unit :=
  fun out => (Ok tt, (out ++ text ++ nl)%string).

(** [try: body / except Exception as e: handler(e)] *)
Definition try_except {A} (body : io A) (handler : exn -> io A) : io A :=
  fun out => match body out with
             | (Ok a, out') => (Ok a, out')
             | (Raise e, out') => handler e out'
             end.

Notation "x <~ c ;; k" := (io_bind c (fun x => k))
  (at level 61, c at next level, right associativity).
Notation "c ;;; k" := (io_bind c (fun _ => k))
  (at level 61, right associativity).

Fixpoint times (n : nat) (s : string) : string :=
  match n with
  | O => EmptyString
  | S m => s ++ times m s
  end.

Definition join (lines : list string) : string :=
  fold_right String.append EmptyString lines.

(** Cell 17: [indent = 4 * ' '] *)
Definition indent : string := times 4 " ".

Inductive diagnostic : Type := Rainbow | HarveyCollier | JarqueBera | BreuschPagan.

Definition pair_stats (r : result (Q * Q)) : result (list Q) :=
  t <- r ;; Ok [fst t; snd t].

Definition quad_stats (r : result (Q * Q * Q * Q)) : result (list Q) :=
  t <- r ;;
  let '(a, b, c, d) := t in Ok [a; b; c; d].

Section Runner.
(** [str] of a statistic, as the f-string formats it. *)
Variable str_float : Q -> string.

(** The tests of statsmodels, by the shape of what they return. *)
Variable linear_rainbow : RegressionResults -> result (Q * Q).
Variable linear_harvey_collier : RegressionResults -> nat -> result (Q * Q).
Variable jarque_bera : list Q -> result (Q * Q * Q * Q).
(** The four statistics of Breusch-Pagan, once its check has passed. *)
Variable breuschpagan_statistics : list Q -> matrix -> Q * Q * Q * Q.

(** [het_breuschpagan(resid, exog_het)] *)
Definition het_breuschpagan (residuals : list Q) (exog_het : matrix)
    : result (Q * Q * Q * Q) :=
  _ <- check_het_test exog_het "The Breusch-Pagan" ;;
  Ok (breuschpagan_statistics residuals exog_het).

(** Cell 17. *)
Definition display_test {M : Type} (m : M) (title : string)
    (stats_names : list string) (test : M -> result (list Q)) : io unit :=
  score <~ call (test m) ;;
  let text :=
    fold_left (fun text ns =>
                 (text ++ indent ++ fst ns ++ ": " ++ str_float (snd ns) ++ nl)%string)
              (combine stats_names score)
              (title ++ " test:" ++ nl)%string in
  print text.

(** The format of one block of output: a title line, then one indented
    line per named statistic. *)
Definition stat_line (name : string) (value : Q) : string :=
  (indent ++ name ++ ": " ++ str_float value ++ nl)%string.

Definition block (title : string) (named : list (string * Q)) : string :=
  (title ++ " test:" ++ nl
   ++ join (map (fun ns => stat_line (fst ns) (snd ns)) named))%string.

Definition title (d : diagnostic) : string :=
  match d with
  | Rainbow => "Rainbow"
  | HarveyCollier => "Harvey Collier"
  | JarqueBera => "Jarque-Bera"
  | BreuschPagan => "Breusch-Pagan"
  end.

Definition stats (d : diagnostic) : list string :=
  match d with
  | Rainbow => ["score"; "p-value"]
  | HarveyCollier => ["score"; "p-value"]
  | JarqueBera => ["score"; "p-value"; "skew"; "kurtosis"]
  | BreuschPagan => ["LM score"; "LM p-value"; "F score"; "F p-value"]
  end.

Variable fitted : RegressionResults.
(** The transformed frame of cell 15, read for [skip=df.shape[0]]. *)
Variable df : matrix.

(** What the test of each cell returns when [display_test] calls it. *)
Definition returned (d : diagnostic) : result (list Q) :=
  match d with
  | Rainbow => pair_stats (linear_rainbow fitted)
  | HarveyCollier => pair_stats (linear_harvey_collier fitted (n_rows df))
  | JarqueBera => quad_stats (jarque_bera (resid fitted))
  | BreuschPagan =>
      quad_stats (het_breuschpagan (resid fitted) (exog (model fitted)))
  end.

Definition invoke (d : diagnostic) : io unit :=
  match d with
  | Rainbow =>
      display_test fitted (title d) (stats d)
        (fun m => pair_stats (linear_rainbow m))
  | HarveyCollier =>
      display_test fitted (title d) (stats d)
        (fun m => pair_stats (linear_harvey_collier m (n_rows df)))
  | JarqueBera =>
      display_test (resid fitted) (title d) (stats d)
        (fun r => quad_stats (jarque_bera r))
  | BreuschPagan =>
      display_test (resid fitted) (title d) (stats d)
        (fun r => quad_stats (het_breuschpagan r (exog (model fitted))))
  end.

(** [except Exception as e: print(e)] *)
Definition print_exception (e : exn) : io unit := print (str_exn e).

(** Cells 21, 24, 26 and 29: the first calls [display_test] bare, the
    other three inside [try ... except]. *)
Definition run_cell (d : diagnostic) : io unit :=
  match d with
  | Rainbow => invoke d
  | _ => try_except (invoke d) print_exception
  end.

(** Section 2 of the notebook, top to bottom. *)
Definition diagnostics : io unit :=
  run_cell Rainbow ;;; run_cell HarveyCollier ;;;
  run_cell JarqueBera ;;; run_cell BreuschPagan.

End Runner.

End Diagnostics.
Import Diagnostics.

(** ** Sample data *)

Module Examples.

(** Five raw rows: the second and the fourth lie in an excluded
    neighbourhood, the third is above the living-area bound.  Every column
    of the default table is present and is missing in all rows but one. *)
Definition raw_frame : DataFrame :=
  [ ("Order", [Num 1; Num 2; Num 3; Num 4; Num 5]);
    ("PID", [Num 526301100; Num 526350040; Num 526351010; Num 526353030;
             Num 527105010]);
    ("MSSubClass", [Num 20; Num 120; Num 60; Num 160; Num 85]);
    ("Neighborhood", [Str "NAmes"; Str "GrnHill"; Str "Gilbert"; Str "Landmrk";
                      Str "NAmes"]);
    ("GrLivArea", [Num 1656; Num 1295; Num 4676; Num 1320; Num 896]);
    ("MoSold", [Num 5; Num 6; Num 4; Num 1; Num 13]);
    ("SalePrice", [Num 215000; Num 330000; Num 184750; Num 137000; Num 105000]) ]
  ++ map (fun kv => (fst kv, [NaN; snd kv; NaN; NaN; NaN])) default_values.

(** The frame cells 5, 9 and 10 leave of it: the first and the last row. *)
Definition cleaned_frame : DataFrame :=
  match clean raw_frame with
  | Ok out => out
  | Raise _ => []
  end.


Definition year_built : Features Q :=
  {| numerical := [[Some 1880%Q; Some 2000%Q]]; categorical := [] |}.

(** Three houses with one numeric and two categorical variables; the lot
    frontage of the second is missing. *)
Definition three_houses : Features Q :=
  {| numerical := [[Some 141%Q; None; Some 81%Q]];
     categorical := [["RL"; "RH"; "RL"]; ["Pave"; "Pave"; "Pave"]] |}.

Definition fitted_on {A} `{Number A} (X : Features A) : Fitted :=
  match column_transformer_fit X with
  | Ok F => F
  | Raise _ => {| statistics_ := []; scalings_ := []; categories_ := [] |}
  end.

(** A stand-in for [str] in the samples: the sign of the statistic. *)
Definition show_sign (q : Q) : string :=
  match Qnum q with
  | Z0 => "0"
  | Zpos _ => "+"
  | Zneg _ => "-"
  end.

Definition sample_results : RegressionResults :=
  {| model := OLS [1%Q; 2%Q] [[0%Q; 1%Q]] false;
     params := [2%Q];
     resid := [1%Q; 0%Q] |}.

End Examples.
Import Examples.

(** ** The cells around the cleaner: column labels and the target *)

Module Preparation.

(** [col.replace('.', '')]: every full stop is removed. *)
Fixpoint strip_dots (s : string) : string :=
  match s with
  | EmptyString => EmptyString
  | String ch rest =>
      if Ascii.eqb ch "."%char then strip_dots rest
      else String ch (strip_dots rest)
  end.

(** Cell 4, second line: [df.columns = [col.replace('.', '') for col in
    df.columns]]. *)
Definition normalize_columns (df : DataFrame) : DataFrame :=
  map (fun col => (strip_dots (fst col), snd col)) df.

(** Cell 12: [y = df.pop("SalePrice")] returns the column and deletes it
    from the frame. *)
Definition pop (name : string) (df : DataFrame) : result (series * DataFrame) :=
  y <- getitem name df ;;
  Ok (y, filter (fun col => negb (String.eqb (fst col) name)) df).

(** Cells 4 to 12 after the file is read. *)
Definition prepare (raw : DataFrame) : result (series * DataFrame) :=
  df <- clean (normalize_columns raw) ;;
  pop "SalePrice" df.

(** A row passes cell 5 when it passes both of its tests. *)
Definition passes_filters (row : cell * cell) : bool :=
  keeps_neighborhood (fst row) && below_bound (snd row).

(** The entry cell 9 leaves in a column for an entry [c]. *)
Definition filled_entry (name : string) (c : cell) : cell :=
  if isna c
  then match lookup name default_values with
       | Some v => v
       | None => c
       end
  else c.

(** The entry cell 10 leaves in a column for an entry [c]. *)
Definition recoded_entry (name : string) (c : cell) : cell :=
  match lookup name recoding with
  | Some pairs => replace_cell pairs c
  | None => c
  end.

(** A column has an observed entry. *)
Definition has_observation {A} (col : list (option A)) : bool :=
  existsb (fun o => match o with Some _ => true | None => false end) col.

End Preparation.
Import Preparation.

Module Reporting.

(** All entries of a column equal one number that is not zero. *)
Definition constant_nonzero (col : list Q) : Prop :=
  exists c : Q, ~ (c == 0)%Q /\ forall v, In v col -> (v == c)%Q.

(** The line feed, character 10, written out: the texts of the properties
    below are spelled with it and with the four spaces themselves, not with
    the constants [nl] and [indent] of the code. *)
Abbreviation LF := (String "010"%char EmptyString).

(** [str(e)], as [print(e)] writes it, for the exceptions whose [str] is the
    message they were raised with.  A [KeyError] has none here: Python
    prints the [repr] of its argument, which is not modelled. *)
Definition message (e : exn) : option string :=
  match e with
  | KeyError _ => None
  | TypeError msg | ValueError msg | OtherError msg => Some msg
  end.

(** The block of a test, spelled out: the title line, then one line per
    named statistic. *)
Definition printed_block (str_float : Q -> string) (title : string)
    (named : list (string * Q)) : string :=
  (title ++ " test:" ++ LF
   ++ join (map (fun ns => "    " ++ fst ns ++ ": " ++ str_float (snd ns) ++ LF)
                named))%string.

(** What a guarded cell of section 2 adds to the output: the block of the
    returned statistics, or the message of the exception, each followed by
    the line feed of [print]; nothing is said of an exception without a
    [message]. *)
Definition cell_output (str_float : Q -> string)
    (linear_rainbow : RegressionResults -> result (Q * Q))
    (linear_harvey_collier : RegressionResults -> nat -> result (Q * Q))
    (jarque_bera : list Q -> result (Q * Q * Q * Q))
    (breuschpagan_statistics : list Q -> matrix -> Q * Q * Q * Q)
    (fitted : RegressionResults) (df : matrix) (d : diagnostic) : option string :=
  match returned linear_rainbow linear_harvey_collier jarque_bera
                 breuschpagan_statistics fitted df d with
  | Ok score =>
      Some (printed_block str_float (title d) (combine (stats d) score) ++ LF)%string
  | Raise e => option_map (fun msg => (msg ++ LF)%string) (message e)
  end.

End Reporting.
Import Reporting.

Module MoreExamples.

(** The raw header of the file, with the full stops pandas reads. *)
Definition raw_header_frame : DataFrame :=
  [ ("Order", [Num 1; Num 2]); ("PID", [Num 526301100; Num 526350040]);
    ("MS.SubClass", [Num 20; Num 20]); ("Gr.Liv.Area", [Num 1656; Num 896]);
    ("Neighborhood", [Str "NAmes"; Str "NAmes"]) ].

(** A frame that lacks the second defaulted column. *)
Definition alley_only : DataFrame := [("Alley", [NaN; Str "Pave"])].

(** The target and the features cells 4 to 12 make of the sample frame. *)
Definition prepared_sample : series * DataFrame :=
  match prepare raw_frame with
  | Ok p => p
  | Raise _ => ([], [])
  end.

End MoreExamples.
Import MoreExamples.

(** * Properties *)

(** ** Frames *)

Section FrameFacts.

Lemma result_bind_ok {A B} (r : result A) (k : A -> result B) (b : B) :
  (x <- r ;; k x) = Ok b -> exists a, r = Ok a /\ k a = Ok b.
Proof.
  destruct r as [a | e]; simpl; intros Hk; [eauto | discriminate].
Qed.

Lemma getitem_map (F : string * series -> string * series) name df :
  (forall col, fst (F col) = fst col) ->
  getitem name (map F df) =
  match getitem name df with
  | Ok s => Ok (snd (F (name, s)))
  | Raise e => Raise e
  end.
Proof.
  intros Hname. induction df as [| [n s] rest IH]; simpl; [reflexivity |].
  specialize (Hname (n, s)). destruct (F (n, s)) as [n' s'] eqn:HF.
  simpl in Hname. subst n'.
  destruct (String.eqb n name) eqn:E.
  - apply String.eqb_eq in E. subst n. rewrite HF. reflexivity.
  - exact IH.
Qed.

Lemma getitem_has_column name df s :
  getitem name df = Ok s -> has_column name df = true.
Proof.
  induction df as [| [n c] rest IH]; simpl; [discriminate |].
  destruct (String.eqb n name); simpl; auto.
Qed.

Lemma has_column_getitem name df :
  has_column name df = true -> exists s, getitem name df = Ok s.
Proof.
  induction df as [| [n c] rest IH]; simpl; [discriminate |].
  destruct (String.eqb n name); simpl; eauto.
Qed.

Lemma getitem_In name df s : getitem name df = Ok s -> In (name, s) df.
Proof.
  induction df as [| [n c] rest IH]; simpl; [discriminate |].
  destruct (String.eqb n name) eqn:E; intros Hg.
  - apply String.eqb_eq in E. left. congruence.
  - right. auto.
Qed.

Lemma has_column_map (F : string * series -> string * series) name df :
  (forall col, fst (F col) = fst col) ->
  has_column name (map F df) = has_column name df.
Proof.
  intros Hname. unfold has_column. induction df as [| col rest IH]; simpl.
  - reflexivity.
  - rewrite Hname, IH. reflexivity.
Qed.

Lemma select_In mask s c : In c (select mask s) -> In c s.
Proof.
  unfold select. intros Hin. apply in_map_iff in Hin.
  destruct Hin as [[b x] [Hx Hin]]. simpl in Hx. subst x.
  apply filter_In in Hin. destruct Hin as [Hin _].
  eapply in_combine_r; eauto.
Qed.

Lemma select_own_mask (p : cell -> bool) s c :
  In c (select (map p s) s) -> p c = true.
Proof.
  unfold select. induction s as [| x rest IH]; simpl; [tauto |].
  destruct (p x) eqn:Hp; simpl; intros Hin.
  - destruct Hin as [Hx | Hin]; [congruence | auto].
  - auto.
Qed.

Lemma select_all_true mask s :
  forallb (fun b => b) mask = true -> List.length s <= List.length mask ->
  select mask s = s.
Proof.
  unfold select. revert s. induction mask as [| b mask IH]; intros s Hall Hlen.
  - destruct s; simpl in *; [reflexivity | lia].
  - destruct s as [| x s]; [reflexivity |].
    simpl in Hall. apply andb_true_iff in Hall. destruct Hall as [Hb Hall].
    subst b. simpl. f_equal. apply IH; [assumption | simpl in Hlen; lia].
Qed.

Lemma lt_scalar_spec s bound mask :
  lt_scalar s bound = Ok mask ->
  mask = map (fun c => match c with Num q => Qltb q bound | _ => false end) s
  /\ forall c, In c s -> forall t, c <> Str t.
Proof.
  revert mask. induction s as [| c rest IH]; simpl; intros mask Hm.
  - inversion Hm. split; [reflexivity | tauto].
  - destruct c as [q | t | ]; simpl in Hm; try discriminate;
      apply result_bind_ok in Hm; destruct Hm as [bs [Hbs Hm]];
      inversion Hm; subst mask; destruct (IH _ Hbs) as [-> Hstr];
      (split; [reflexivity |]);
      intros c [<- | Hin] t; try discriminate; eauto.
Qed.

Lemma lt_scalar_total s bound :
  (forall c, In c s -> forall t, c <> Str t) ->
  exists mask, lt_scalar s bound = Ok mask.
Proof.
  induction s as [| c rest IH]; simpl; intros Hs; [eauto |].
  destruct IH as [bs Hbs]; [intros; apply Hs; auto |]. rewrite Hbs.
  destruct c as [q | t | ]; simpl; eauto.
  exfalso. eapply Hs; eauto.
Qed.

End FrameFacts.

(** ** The cleaner *)

Section CleanerFacts.

Lemma fillna_no_missing value s : value <> NaN -> ~ In NaN (fillna value s).
Proof.
  intros Hv Hin. unfold fillna in Hin. apply in_map_iff in Hin.
  destruct Hin as [c [Hc _]]. destruct c; simpl in Hc; congruence.
Qed.

Lemma fillna_id value s : ~ In NaN s -> fillna value s = s.
Proof.
  unfold fillna. induction s as [| c rest IH]; simpl; intros Hs; [reflexivity |].
  rewrite IH by tauto. destruct c; simpl; try reflexivity. tauto.
Qed.

Lemma fill_column_name col value (c : string * series) :
  fst (fill_column col value c) = fst c.
Proof. unfold fill_column. destruct (String.eqb (fst c) col); reflexivity. Qed.

Lemma fill_with_name defaults (c : string * series) : fst (fill_with defaults c) = fst c.
Proof.
  unfold fill_with. revert c. induction defaults as [| kv rest IH]; intros c; simpl.
  - reflexivity.
  - rewrite IH. apply fill_column_name.
Qed.

Lemma fill_column_clean col value (c : string * series) :
  ~ In NaN (snd c) -> fill_column col value c = c.
Proof.
  intros Hc. unfold fill_column. destruct (String.eqb (fst c) col); [| reflexivity].
  rewrite fillna_id by assumption. destruct c; reflexivity.
Qed.

Lemma fill_with_clean defaults (c : string * series) : ~ In NaN (snd c) -> fill_with defaults c = c.
Proof.
  unfold fill_with. induction defaults as [| kv rest IH]; simpl; intros Hc.
  - reflexivity.
  - rewrite fill_column_clean by assumption. auto.
Qed.

Lemma fill_with_other defaults (c : string * series) :
  ~ In (fst c) (map fst defaults) -> fill_with defaults c = c.
Proof.
  unfold fill_with. revert c. induction defaults as [| kv rest IH]; intros c Hc.
  - reflexivity.
  - simpl in *. unfold fill_column at 2.
    destruct (String.eqb (fst c) (fst kv)) eqn:E.
    + apply String.eqb_eq in E. exfalso. apply Hc. left. congruence.
    + apply IH. tauto.
Qed.

Lemma fill_with_length defaults (c : string * series) :
  List.length (snd (fill_with defaults c)) = List.length (snd c).
Proof.
  unfold fill_with. revert c. induction defaults as [| kv rest IH]; intros c; simpl.
  - reflexivity.
  - rewrite IH. unfold fill_column, fillna.
    destruct (String.eqb (fst c) (fst kv)); simpl; [apply length_map | reflexivity].
Qed.

Lemma fill_with_no_missing defaults (c : string * series) :
  (forall kv, In kv defaults -> snd kv <> NaN) ->
  In (fst c) (map fst defaults) ->
  ~ In NaN (snd (fill_with defaults c)).
Proof.
  unfold fill_with. revert c. induction defaults as [| kv rest IH]; intros c Hv Hin.
  - destruct Hin.
  - simpl. destruct (String.eqb (fst c) (fst kv)) eqn:E.
    + assert (Hclean : ~ In NaN (snd (fill_column (fst kv) (snd kv) c))).
      { unfold fill_column. rewrite E. simpl. apply fillna_no_missing.
        apply Hv. left. reflexivity. }
      fold (fill_with rest (fill_column (fst kv) (snd kv) c)).
      rewrite fill_with_clean; assumption.
    + apply IH.
      * intros kv' Hkv'. apply Hv. right. assumption.
      * rewrite fill_column_name. simpl in Hin. destruct Hin as [Heq | Hin].
        -- apply String.eqb_neq in E. congruence.
        -- assumption.
Qed.

Lemma replace_na_ok df col value :
  has_column col df = true ->
  replace_na df col value = Ok (map (fill_column col value) df).
Proof.
  intros Hc. unfold replace_na.
  destruct (has_column_getitem _ _ Hc) as [s ->]. reflexivity.
Qed.

Lemma replace_na_inv df col value df' :
  replace_na df col value = Ok df' ->
  has_column col df = true /\ df' = map (fill_column col value) df.
Proof.
  unfold replace_na. intros Hr. apply result_bind_ok in Hr.
  destruct Hr as [s [Hs Hr]]. split.
  - eapply getitem_has_column; eauto.
  - congruence.
Qed.

(** The loop of cell 9 succeeds exactly when every defaulted column is in the
    frame, and then rewrites each column on its own. *)
Lemma fill_defaults_map defaults df :
  (forall kv, In kv defaults -> has_column (fst kv) df = true) ->
  fill_defaults defaults df = Ok (map (fill_with defaults) df).
Proof.
  revert df. induction defaults as [| [c v] rest IH]; intros df Hcols; simpl.
  - unfold fill_with. simpl. rewrite map_id. reflexivity.
  - rewrite replace_na_ok by (apply (Hcols (c, v)); left; reflexivity). simpl.
    rewrite IH.
    + rewrite map_map. reflexivity.
    + intros kv Hkv. rewrite has_column_map by apply fill_column_name.
      apply Hcols. right. assumption.
Qed.

Lemma fill_defaults_inv defaults df df' :
  fill_defaults defaults df = Ok df' ->
  (forall kv, In kv defaults -> has_column (fst kv) df = true)
  /\ df' = map (fill_with defaults) df.
Proof.
  intros Hf.
  assert (Hcols : forall kv, In kv defaults -> has_column (fst kv) df = true).
  { revert df df' Hf. induction defaults as [| [c v] rest IH]; intros df df' Hf kv Hkv.
    - destruct Hkv.
    - simpl in Hf. apply result_bind_ok in Hf. destruct Hf as [df1 [H1 Hf]].
      apply replace_na_inv in H1. destruct H1 as [Hc ->].
      destruct Hkv as [<- | Hkv]; [exact Hc |].
      specialize (IH _ _ Hf kv Hkv).
      rewrite has_column_map in IH by apply fill_column_name. exact IH. }
  split; [exact Hcols |].
  rewrite fill_defaults_map in Hf by exact Hcols. congruence.
Qed.

End CleanerFacts.

(** ** Replacement dicts *)

Section ReplaceFacts.

Lemma cell_eqb_same_target k k' c :
  cell_eqb k c = true -> cell_eqb k' c = true -> cell_eqb k k' = true.
Proof.
  destruct k as [p | s | ], k' as [p' | s' | ], c as [q | t | ];
    simpl; try discriminate; intros H1 H2.
  - apply Qeq_bool_iff. apply Qeq_bool_iff in H1, H2.
    rewrite H1, H2. reflexivity.
  - apply String.eqb_eq in H1, H2. subst. apply String.eqb_refl.
Qed.

Lemma replace_fold_no_match (pairs : list (cell * cell)) c acc :
  (forall kv, In kv pairs -> cell_eqb (fst kv) c = false) ->
  fold_left (fun cur p => if cell_eqb (fst p) c then snd p else cur) pairs acc = acc.
Proof.
  revert acc. induction pairs as [| kv rest IH]; intros acc Hno; simpl.
  - reflexivity.
  - rewrite (Hno kv) by (left; reflexivity). apply IH.
    intros kv' Hkv'. apply Hno. right. assumption.
Qed.

Lemma replace_fold_match (pairs : list (cell * cell)) c acc k v :
  distinct_keys pairs = true -> In (k, v) pairs -> cell_eqb k c = true ->
  fold_left (fun cur p => if cell_eqb (fst p) c then snd p else cur) pairs acc = v.
Proof.
  revert acc. induction pairs as [| kv rest IH]; intros acc Hd Hin Hk.
  - destruct Hin.
  - simpl in Hd. apply andb_true_iff in Hd. destruct Hd as [Hhead Hd].
    simpl. destruct Hin as [-> | Hin].
    + simpl. rewrite Hk. apply replace_fold_no_match.
      intros kv' Hkv'. rewrite forallb_forall in Hhead.
      specialize (Hhead kv' Hkv'). simpl in Hhead.
      destruct (cell_eqb (fst kv') c) eqn:E; [| reflexivity].
      rewrite (cell_eqb_same_target _ _ _ Hk E) in Hhead. discriminate.
    + apply IH; assumption.
Qed.

Lemma replace_cell_unmapped pairs c :
  (forall kv, In kv pairs -> cell_eqb (fst kv) c = false) ->
  replace_cell pairs c = c.
Proof. apply replace_fold_no_match. Qed.

Lemma replace_cell_mapped pairs c k v :
  distinct_keys pairs = true -> In (k, v) pairs -> cell_eqb k c = true ->
  replace_cell pairs c = v.
Proof. apply replace_fold_match. Qed.

Lemma replace_fold_cases (pairs : list (cell * cell)) c acc :
  let r := fold_left (fun cur p => if cell_eqb (fst p) c then snd p else cur)
                     pairs acc in
  r = acc \/ exists k, In (k, r) pairs.
Proof.
  revert acc. induction pairs as [| [k v] rest IH]; intros acc; simpl.
  - left. reflexivity.
  - destruct (IH (if cell_eqb k c then v else acc)) as [Heq | [k' Hin]].
    + rewrite Heq. destruct (cell_eqb k c).
      * right. exists k. left. reflexivity.
      * left. reflexivity.
    + right. exists k'. right. exact Hin.
Qed.

Lemma replace_cell_cases pairs c :
  replace_cell pairs c = c \/ exists k, In (k, replace_cell pairs c) pairs.
Proof. apply (replace_fold_cases pairs c c). Qed.

Lemma replace_cell_idempotent pairs c :
  values_not_keys pairs = true ->
  replace_cell pairs (replace_cell pairs c) = replace_cell pairs c.
Proof.
  intros Hv. destruct (replace_cell_cases pairs c) as [Heq | [k Hin]].
  - rewrite Heq. exact Heq.
  - apply replace_cell_unmapped. intros kv Hkv.
    unfold values_not_keys in Hv. rewrite forallb_forall in Hv.
    specialize (Hv _ Hin). rewrite forallb_forall in Hv.
    specialize (Hv _ Hkv). simpl in Hv.
    destruct (cell_eqb (fst kv) (replace_cell pairs c)); [discriminate | reflexivity].
Qed.

Lemma replace_cell_not_missing pairs c :
  values_not_missing pairs = true -> c <> NaN -> replace_cell pairs c <> NaN.
Proof.
  intros Hv Hc. destruct (replace_cell_cases pairs c) as [Heq | [k Hin]].
  - congruence.
  - unfold values_not_missing in Hv. rewrite forallb_forall in Hv.
    specialize (Hv _ Hin). simpl in Hv.
    destruct (replace_cell pairs c); [discriminate .. | discriminate Hv].
Qed.

Lemma replace_column_name to_replace col :
  fst (replace_column to_replace col) = fst col.
Proof. unfold replace_column. destruct (lookup (fst col) to_replace); reflexivity. Qed.

Lemma lookup_In {V} name (d : list (string * V)) v :
  lookup name d = Some v -> In (name, v) d.
Proof.
  induction d as [| [k w] rest IH]; simpl; [discriminate |].
  destruct (String.eqb k name) eqn:E; intros Hl.
  - apply String.eqb_eq in E. left. congruence.
  - right. auto.
Qed.

Lemma lookup_None {V} name (d : list (string * V)) :
  existsb (fun kv => String.eqb (fst kv) name) d = false -> lookup name d = None.
Proof.
  induction d as [| [k w] rest IH]; simpl; [reflexivity |].
  destruct (String.eqb k name); simpl; [discriminate | exact IH].
Qed.

Lemma not_In_by_eqb name (l : list string) :
  existsb (String.eqb name) l = false -> ~ In name l.
Proof.
  intros Hex Hin. assert (Ht : existsb (String.eqb name) l = true).
  { apply existsb_exists. exists name. split; [exact Hin | apply String.eqb_refl]. }
  congruence.
Qed.

(** The dict of cell 10 is a dict, its new values are never keys of the same
    column, and it writes no missing value. *)
Lemma recoding_shape :
  forall col pairs, In (col, pairs) recoding ->
    distinct_keys pairs = true /\ values_not_keys pairs = true
    /\ values_not_missing pairs = true.
Proof.
  assert (Hall : forallb (fun e => distinct_keys (snd e) && values_not_keys (snd e)
                                   && values_not_missing (snd e)) recoding = true)
    by (vm_compute; reflexivity).
  intros col pairs Hin. rewrite forallb_forall in Hall.
  specialize (Hall _ Hin). simpl in Hall.
  apply andb_true_iff in Hall. destruct Hall as [Hall H3].
  apply andb_true_iff in Hall. tauto.
Qed.

Lemma default_values_not_missing :
  forall kv, In kv default_values -> snd kv <> NaN.
Proof.
  assert (Hall : forallb (fun kv => negb (isna (snd kv))) default_values = true)
    by (vm_compute; reflexivity).
  intros kv Hin. rewrite forallb_forall in Hall. specialize (Hall _ Hin).
  destruct (snd kv); [discriminate .. | discriminate Hall].
Qed.

End ReplaceFacts.

(** ** The cleaning stage, step by step *)

Section CleanFacts.

Lemma getitem_loc_rows name mask df :
  getitem name (loc_rows mask df) =
  match getitem name df with
  | Ok s => Ok (select mask s)
  | Raise e => Raise e
  end.
Proof. unfold loc_rows. rewrite getitem_map; reflexivity. Qed.

Lemma getitem_fill_with_other name df :
  ~ In name (map fst default_values) ->
  getitem name (map (fill_with default_values) df) = getitem name df.
Proof.
  intros Hn. rewrite getitem_map by apply fill_with_name.
  destruct (getitem name df) as [s | e]; [| reflexivity].
  rewrite fill_with_other by exact Hn. reflexivity.
Qed.

Lemma getitem_replace_other name df :
  lookup name recoding = None ->
  getitem name (replace recoding df) = getitem name df.
Proof.
  intros Hn. unfold replace. rewrite getitem_map by apply replace_column_name.
  destruct (getitem name df) as [s | e]; [| reflexivity].
  unfold replace_column. cbn [fst snd]. rewrite Hn. reflexivity.
Qed.

Lemma invert_isin s :
  invert (isin excluded_neighborhoods s) = map keeps_neighborhood s.
Proof. unfold invert, isin. rewrite map_map. reflexivity. Qed.

(** What a successful run of the row filters and the two value steps has
    computed on the way. *)
Lemma clean_rows_and_values_inv df out :
  clean_rows_and_values df = Ok out ->
  exists nb area,
    getitem "Neighborhood" df = Ok nb
    /\ getitem "GrLivArea" df = Ok area
    /\ (forall c, In c (select (map keeps_neighborhood nb) area) ->
        forall t, c <> Str t)
    /\ let kept := loc_rows (map below_bound (select (map keeps_neighborhood nb) area))
                            (loc_rows (map keeps_neighborhood nb) df) in
       (forall kv, In kv default_values -> has_column (fst kv) kept = true)
       /\ out = replace recoding (map (fill_with default_values) kept).
Proof.
  unfold clean_rows_and_values, drop_outliers. intros Hc.
  apply result_bind_ok in Hc. destruct Hc as [df3 [Hrows Hc]].
  apply result_bind_ok in Hc. destruct Hc as [df4 [Hfill Hc]].
  apply result_bind_ok in Hrows. destruct Hrows as [nb [Hnb Hrows]].
  apply result_bind_ok in Hrows. destruct Hrows as [area' [Harea Hrows]].
  apply result_bind_ok in Hrows. destruct Hrows as [mask [Hmask Hrows]].
  rewrite invert_isin in Harea, Hrows.
  rewrite getitem_loc_rows in Harea.
  destruct (getitem "GrLivArea" df) as [area | e] eqn:Hga; [| discriminate].
  inversion Harea; subst area'. clear Harea.
  apply lt_scalar_spec in Hmask. destruct Hmask as [-> Hstr].
  apply fill_defaults_inv in Hfill. destruct Hfill as [Hcols ->].
  inversion Hrows; subst df3. inversion Hc; subst out.
  exists nb, area. repeat split; auto.
Qed.

Lemma Qltb_lt p q : Qltb p q = true -> (p < q)%Q.
Proof.
  unfold Qltb. intros Hlt. apply negb_true_iff in Hlt.
  apply Qnot_le_lt. intros Hle. apply Qle_bool_iff in Hle. congruence.
Qed.

Lemma Qlt_ltb p q : (p < q)%Q -> Qltb p q = true.
Proof.
  unfold Qltb. intros Hlt. apply negb_true_iff.
  destruct (Qle_bool q p) eqn:E; [| reflexivity].
  apply Qle_bool_iff in E. exfalso. apply (Qlt_not_le _ _ Hlt E).
Qed.

End CleanFacts.

(** ** Claims about the cleaner *)

Section CleanerClaims.

Lemma neighborhood_untouched :
  ~ In "Neighborhood" (map fst default_values)
  /\ lookup "Neighborhood" recoding = None.
Proof. split; [apply not_In_by_eqb |]; vm_compute; reflexivity. Qed.

Lemma living_area_untouched :
  ~ In "GrLivArea" (map fst default_values)
  /\ lookup "GrLivArea" recoding = None.
Proof. split; [apply not_In_by_eqb |]; vm_compute; reflexivity. Qed.

(** The two filtered columns of a cleaned frame, in terms of the frame the
    identifier columns were dropped from. *)
Lemma filtered_columns df out :
  clean_rows_and_values df = Ok out ->
  exists nb area,
    getitem "Neighborhood" df = Ok nb /\ getitem "GrLivArea" df = Ok area
    /\ getitem "Neighborhood" out =
       Ok (select (map below_bound (select (map keeps_neighborhood nb) area))
                  (select (map keeps_neighborhood nb) nb))
    /\ getitem "GrLivArea" out =
       Ok (select (map below_bound (select (map keeps_neighborhood nb) area))
                  (select (map keeps_neighborhood nb) area)).
Proof.
  intros Hc. apply clean_rows_and_values_inv in Hc.
  destruct Hc as [nb [area [Hnb [Harea [_ [_ ->]]]]]].
  exists nb, area. repeat split; try assumption.
  - rewrite getitem_replace_other by apply neighborhood_untouched.
    rewrite getitem_fill_with_other by apply neighborhood_untouched.
    rewrite !getitem_loc_rows, Hnb. reflexivity.
  - rewrite getitem_replace_other by apply living_area_untouched.
    rewrite getitem_fill_with_other by apply living_area_untouched.
    rewrite !getitem_loc_rows, Harea. reflexivity.
Qed.

Lemma keeps_neighborhood_sound c :
  keeps_neighborhood c = true -> c <> Str "GrnHill" /\ c <> Str "Landmrk".
Proof. intros Hk. split; intros ->; vm_compute in Hk; discriminate. Qed.

Lemma below_bound_sound c :
  below_bound c = true -> exists q, c = Num q /\ (q < 4000)%Q.
Proof.
  destruct c as [q | t | ]; simpl; try discriminate.
  intros Hlt. exists q. split; [reflexivity | apply Qltb_lt; exact Hlt].
Qed.

(** C5. In every row that is left after cleaning, the Neighborhood entry is
    neither "GrnHill" nor "Landmrk", and the GrLivArea entry is a number that
    does not exceed 4000. *)
Theorem cleaned_rows_pass_the_filters (df out : DataFrame) :
  clean df = Ok out ->
  exists nb area,
    getitem "Neighborhood" out = Ok nb
    /\ getitem "GrLivArea" out = Ok area
    /\ (forall i c, nth_error nb i = Some c ->
        c <> Str "GrnHill" /\ c <> Str "Landmrk")
    /\ (forall i c, nth_error area i = Some c ->
        exists q, c = Num q /\ (q <= 4000)%Q).
Proof.
  unfold clean. intros Hc. apply result_bind_ok in Hc.
  destruct Hc as [df1 [_ Hc]]. apply filtered_columns in Hc.
  destruct Hc as [nb [area [_ [_ [Hnb Harea]]]]].
  eexists. eexists. split; [exact Hnb |]. split; [exact Harea |]. split.
  - intros i c Hi. apply nth_error_In in Hi. apply select_In in Hi.
    apply select_own_mask in Hi. apply keeps_neighborhood_sound. exact Hi.
  - intros i c Hi. apply nth_error_In in Hi. apply select_own_mask in Hi.
    apply below_bound_sound in Hi. destruct Hi as [q [-> Hq]].
    exists q. split; [reflexivity | apply Qlt_le_weak; exact Hq].
Qed.

Lemma cleaned_rows_pass_the_filters_witness :
  clean raw_frame = Ok cleaned_frame
  /\ exists nb area,
       getitem "Neighborhood" cleaned_frame = Ok nb
       /\ getitem "GrLivArea" cleaned_frame = Ok area
       /\ (forall i c, nth_error nb i = Some c ->
           c <> Str "GrnHill" /\ c <> Str "Landmrk")
       /\ (forall i c, nth_error area i = Some c ->
           exists q, c = Num q /\ (q <= 4000)%Q).
Proof.
  split.
  - vm_compute. reflexivity.
  - apply (cleaned_rows_pass_the_filters raw_frame cleaned_frame).
    vm_compute. reflexivity.
Defined.

(** C6. When the frame has every column of the default-value table, the
    replacement loop of cell 9 runs to its end, and afterwards no column
    named in the table holds a missing value. *)
Theorem defaults_leave_no_missing (df : DataFrame) :
  (forall column, In column (map fst default_values) ->
     has_column column df = true) ->
  exists filled,
    fill_defaults default_values df = Ok filled
    /\ forall column s,
         In column (map fst default_values) -> In (column, s) filled ->
         ~ In NaN s.
Proof.
  intros Hcols. exists (map (fill_with default_values) df). split.
  - apply fill_defaults_map. intros kv Hkv. apply Hcols.
    apply in_map. exact Hkv.
  - intros column s Hcolumn Hin. apply in_map_iff in Hin.
    destruct Hin as [c [Hc _]].
    assert (Hname : fst c = column).
    { rewrite <- (fill_with_name default_values c), Hc. reflexivity. }
    replace s with (snd (fill_with default_values c)) by (rewrite Hc; reflexivity).
    apply fill_with_no_missing.
    + apply default_values_not_missing.
    + rewrite Hname. exact Hcolumn.
Qed.

Lemma raw_frame_has_default_columns :
  forall column, In column (map fst default_values) ->
    has_column column raw_frame = true.
Proof.
  assert (Hall : forallb (fun c => has_column c raw_frame)
                         (map fst default_values) = true)
    by (vm_compute; reflexivity).
  intros column Hin. rewrite forallb_forall in Hall. apply Hall. exact Hin.
Defined.

Lemma defaults_leave_no_missing_witness :
  (forall column, In column (map fst default_values) ->
     has_column column raw_frame = true)
  /\ exists filled,
       fill_defaults default_values raw_frame = Ok filled
       /\ forall column s,
            In column (map fst default_values) -> In (column, s) filled ->
            ~ In NaN s.
Proof.
  split.
  - exact raw_frame_has_default_columns.
  - apply (defaults_leave_no_missing raw_frame).
    exact raw_frame_has_default_columns.
Defined.

End CleanerClaims.

Section RecodingClaims.

(** C7. Column by column, the recoding step of cell 10 gives every entry
    that equals a key of the column's mapping the value mapped to that key,
    and leaves every entry that equals no key of the column's mapping (and
    every entry of a column without a mapping) as it was. *)
Theorem recoding_replaces_exactly_the_keys
    (df : DataFrame) (j : nat) (name : string) (col : series) :
  nth_error df j = Some (name, col) ->
  exists col',
    nth_error (replace recoding df) j = Some (name, col')
    /\ List.length col' = List.length col
    /\ forall i c, nth_error col i = Some c ->
       exists c', nth_error col' i = Some c'
         /\ match lookup name recoding with
            | Some pairs =>
                (forall k v, In (k, v) pairs -> cell_eqb k c = true -> c' = v)
                /\ ((forall k v, In (k, v) pairs -> cell_eqb k c = false) ->
                    c' = c)
            | None => c' = c
            end.
Proof.
  intros Hj. unfold replace. rewrite nth_error_map, Hj. cbn [option_map].
  unfold replace_column. cbn [fst snd].
  destruct (lookup name recoding) as [pairs |] eqn:Hl.
  - exists (replace_list pairs col). split; [reflexivity |].
    split; [apply length_map |].
    intros i c Hi. exists (replace_cell pairs c). split.
    + unfold replace_list. rewrite nth_error_map, Hi. reflexivity.
    + destruct (recoding_shape name pairs (lookup_In _ _ _ Hl)) as [Hd _]. split.
      * intros k v Hin Hk. eapply replace_cell_mapped; eauto.
      * intros Hno. apply replace_cell_unmapped.
        intros [k v] Hin. apply (Hno k v Hin).
  - exists col. split; [reflexivity |]. split; [reflexivity |].
    intros i c Hi. exists c. split; [exact Hi | reflexivity].
Qed.

Lemma recoding_replaces_exactly_the_keys_witness :
  nth_error raw_frame 2
  = Some ("MSSubClass", [Num 20; Num 120; Num 60; Num 160; Num 85])
  /\ exists col',
       nth_error (replace recoding raw_frame) 2 = Some ("MSSubClass", col')
       /\ List.length col' = 5
       /\ forall i c,
            nth_error [Num 20; Num 120; Num 60; Num 160; Num 85] i = Some c ->
            exists c', nth_error col' i = Some c'
              /\ match lookup "MSSubClass" recoding with
                 | Some pairs =>
                     (forall k v, In (k, v) pairs -> cell_eqb k c = true -> c' = v)
                     /\ ((forall k v, In (k, v) pairs -> cell_eqb k c = false) ->
                         c' = c)
                 | None => c' = c
                 end.
Proof.
  split.
  - reflexivity.
  - apply (recoding_replaces_exactly_the_keys raw_frame 2 "MSSubClass"
             [Num 20; Num 120; Num 60; Num 160; Num 85]).
    reflexivity.
Defined.

End RecodingClaims.

(** ** Running the cleaner a second time *)

Section Rerun.

Lemma rectangular_spec n (df : DataFrame) :
  rectangular n df = true <-> forall col, In col df -> List.length (snd col) = n.
Proof.
  unfold rectangular. rewrite forallb_forall. split; intros Hr col Hin.
  - apply Nat.eqb_eq. auto.
  - apply Nat.eqb_eq. auto.
Qed.

Lemma select_length mask (s1 s2 : series) :
  List.length s1 = List.length s2 ->
  List.length (select mask s1) = List.length (select mask s2).
Proof.
  unfold select. revert s1 s2.
  induction mask as [| b mask IH]; intros [| x1 s1] [| x2 s2] Hlen;
    simpl in *; try reflexivity; try discriminate.
  destruct b; simpl; [f_equal |]; apply IH; lia.
Qed.

Lemma loc_rows_rectangular n mask df :
  rectangular n df = true -> exists m, rectangular m (loc_rows mask df) = true.
Proof.
  intros Hr. exists (List.length (select mask (repeat NaN n))).
  apply rectangular_spec. intros col Hin. unfold loc_rows in Hin.
  apply in_map_iff in Hin. destruct Hin as [c [<- Hc]]. simpl.
  apply select_length. rewrite repeat_length.
  apply (proj1 (rectangular_spec n df) Hr). exact Hc.
Qed.

Lemma map_rectangular (F : string * series -> string * series) n df :
  (forall col, List.length (snd (F col)) = List.length (snd col)) ->
  rectangular n df = true -> rectangular n (map F df) = true.
Proof.
  intros HF Hr. apply rectangular_spec. intros col Hin.
  apply in_map_iff in Hin. destruct Hin as [c [<- Hc]]. rewrite HF.
  apply (proj1 (rectangular_spec n df) Hr). exact Hc.
Qed.

Lemma replace_column_length to_replace (col : string * series) :
  List.length (snd (replace_column to_replace col)) = List.length (snd col).
Proof.
  unfold replace_column. destruct (lookup (fst col) to_replace); [| reflexivity].
  apply length_map.
Qed.

Lemma drop_rectangular labels n df df' :
  rectangular n df = true -> drop labels df = Ok df' -> rectangular n df' = true.
Proof.
  unfold drop. intros Hr Hd.
  destruct (filter (fun l => negb (has_column l df)) labels); [| discriminate].
  inversion Hd. apply rectangular_spec. intros col Hin.
  apply filter_In in Hin. apply (proj1 (rectangular_spec n df) Hr). tauto.
Qed.

Lemma loc_rows_all_true mask n df :
  forallb (fun b => b) mask = true -> rectangular n df = true ->
  n <= List.length mask -> loc_rows mask df = df.
Proof.
  intros Hall Hr Hlen. unfold loc_rows. rewrite <- (map_id df) at 2.
  apply map_ext_in. intros [name s] Hin. simpl. f_equal.
  apply select_all_true; [exact Hall |].
  pose proof (proj1 (rectangular_spec n df) Hr (name, s) Hin) as Hs.
  simpl in Hs. lia.
Qed.

Lemma all_true_mask (p : cell -> bool) s :
  (forall c, In c s -> p c = true) -> forallb (fun b => b) (map p s) = true.
Proof.
  intros Hp. apply forallb_forall. intros b Hb. apply in_map_iff in Hb.
  destruct Hb as [c [<- Hc]]. auto.
Qed.

Lemma replace_column_idempotent (col : string * series) :
  replace_column recoding (replace_column recoding col)
  = replace_column recoding col.
Proof.
  unfold replace_column at 2.
  destruct (lookup (fst col) recoding) as [pairs |] eqn:Hl.
  - unfold replace_column. cbn [fst snd]. rewrite Hl. f_equal.
    unfold replace_list. rewrite map_map. apply map_ext. intros c.
    apply replace_cell_idempotent.
    apply (recoding_shape (fst col) pairs (lookup_In _ _ _ Hl)).
  - unfold replace_column. rewrite Hl. reflexivity.
Qed.

Lemma replace_column_not_missing (col : string * series) :
  ~ In NaN (snd col) -> ~ In NaN (snd (replace_column recoding col)).
Proof.
  unfold replace_column.
  destruct (lookup (fst col) recoding) as [pairs |] eqn:Hl; [| tauto].
  cbn [snd]. intros Hc Hin. unfold replace_list in Hin.
  apply in_map_iff in Hin. destruct Hin as [c [Hr Hin]].
  revert Hr. apply replace_cell_not_missing.
  - apply (recoding_shape (fst col) pairs (lookup_In _ _ _ Hl)).
  - intros ->. contradiction.
Qed.

(** Once cleaned, a frame has no identifier column left to drop. *)
Lemma dropped_columns_absent labels df df' name :
  drop labels df = Ok df' -> In name labels -> has_column name df' = false.
Proof.
  unfold drop. intros Hd Hin.
  destruct (filter (fun l => negb (has_column l df)) labels); [| discriminate].
  inversion Hd. unfold has_column. apply not_true_is_false. intros Hex.
  apply existsb_exists in Hex. destruct Hex as [col [Hcol Hname]].
  apply filter_In in Hcol. destruct Hcol as [_ Hkeep].
  apply negb_true_iff in Hkeep. apply String.eqb_eq in Hname.
  assert (Ht : existsb (String.eqb (fst col)) labels = true).
  { apply existsb_exists. exists name. split; [exact Hin |].
    apply String.eqb_eq. exact Hname. }
  congruence.
Qed.

Lemma has_column_loc_rows name mask df :
  has_column name (loc_rows mask df) = has_column name df.
Proof. unfold loc_rows. apply has_column_map. reflexivity. Qed.

Lemma has_column_cleaned name df out :
  clean_rows_and_values df = Ok out -> has_column name out = has_column name df.
Proof.
  intros Hc. apply clean_rows_and_values_inv in Hc.
  destruct Hc as [nb [area [_ [_ [_ [_ ->]]]]]].
  unfold replace. rewrite has_column_map by apply replace_column_name.
  rewrite has_column_map by apply fill_with_name.
  rewrite !has_column_loc_rows. reflexivity.
Qed.

End Rerun.

Section RerunClaims.

Lemma cleaned_values_are_stable (kept : DataFrame) :
  (forall kv, In kv default_values -> has_column (fst kv) kept = true) ->
  let out := replace recoding (map (fill_with default_values) kept) in
  fill_defaults default_values out = Ok out /\ replace recoding out = out.
Proof.
  intros Hcols out. split.
  - rewrite fill_defaults_map.
    + f_equal. rewrite <- (map_id out) at 2. apply map_ext_in.
      intros col Hin. unfold out, replace in Hin. rewrite map_map in Hin.
      apply in_map_iff in Hin. destruct Hin as [c [<- Hc]].
      destruct (in_dec string_dec (fst c) (map fst default_values)) as [Hk | Hk].
      * apply fill_with_clean. apply replace_column_not_missing.
        apply fill_with_no_missing; [apply default_values_not_missing | exact Hk].
      * apply fill_with_other.
        rewrite replace_column_name, fill_with_name. exact Hk.
    + intros kv Hkv. unfold out, replace.
      rewrite has_column_map by apply replace_column_name.
      rewrite has_column_map by apply fill_with_name. auto.
  - unfold out, replace. rewrite !map_map.
    apply map_ext. intros c. apply replace_column_idempotent.
Qed.

(** C8, as the code has it. For a frame with rows of equal length that the
    cleaner accepts: running the row filters, the default fills and the
    recodings again on the cleaned frame returns that frame unchanged, while
    the first step of the cleaner, the drop of the identifier columns,
    raises on the cleaned frame because those columns are gone. *)
Theorem cleaning_after_the_drop_is_idempotent (n : nat) (df out : DataFrame) :
  rectangular n df = true ->
  clean df = Ok out ->
  clean_rows_and_values out = Ok out
  /\ clean out = Raise (KeyError ["Order"; "PID"]).
Proof.
  intros Hrect Hclean. unfold clean in Hclean.
  apply result_bind_ok in Hclean. destruct Hclean as [df1 [Hdrop Hc]].
  assert (Hrect1 : rectangular n df1 = true)
    by (eapply drop_rectangular; eauto).
  split.
  - destruct (filtered_columns _ _ Hc) as [nb [area [Hnb [Harea [Hnb' Harea']]]]].
    pose proof (clean_rows_and_values_inv _ _ Hc) as Hinv.
    destruct Hinv as [nb0 [area0 [Hnb0 [Harea0 [_ Hinv]]]]].
    rewrite Hnb in Hnb0. inversion Hnb0; subst nb0. clear Hnb0.
    rewrite Harea in Harea0. inversion Harea0; subst area0. clear Harea0.
    cbv zeta in Hinv. destruct Hinv as [Hcols Hout].
    set (kept := loc_rows
                   (map below_bound (select (map keeps_neighborhood nb) area))
                   (loc_rows (map keeps_neighborhood nb) df1)) in *.
    destruct (cleaned_values_are_stable kept Hcols) as [Hfill Hrep].
    cbv zeta in Hfill, Hrep. rewrite <- Hout in Hfill, Hrep.
    assert (Hm : exists m, rectangular m out = true).
    { destruct (loc_rows_rectangular n (map keeps_neighborhood nb) df1 Hrect1)
        as [m1 Hm1].
      destruct (loc_rows_rectangular m1
                  (map below_bound (select (map keeps_neighborhood nb) area))
                  _ Hm1) as [m Hm].
      exists m. rewrite Hout. unfold replace.
      apply map_rectangular; [apply replace_column_length |].
      apply map_rectangular; [apply fill_with_length | exact Hm]. }
    destruct Hm as [m Hm].
    pose proof (proj1 (rectangular_spec m out) Hm _ (getitem_In _ _ _ Hnb'))
      as Hlen_nb.
    pose proof (proj1 (rectangular_spec m out) Hm _ (getitem_In _ _ _ Harea'))
      as Hlen_area.
    cbn [snd] in Hlen_nb, Hlen_area.
    unfold clean_rows_and_values, drop_outliers.
    rewrite Hnb'. cbn [Py.bind]. rewrite invert_isin.
    rewrite (loc_rows_all_true _ m out).
    + rewrite Harea'. cbn [Py.bind].
      match goal with
      | |- context [lt_scalar ?s ?b] =>
          destruct (lt_scalar_total s b) as [mask Hmask]
      end.
      { intros c Hin t ->. apply select_own_mask in Hin. discriminate. }
      rewrite Hmask. cbn [Py.bind].
      apply lt_scalar_spec in Hmask. destruct Hmask as [-> _].
      rewrite (loc_rows_all_true _ m out).
      * rewrite Hfill. cbn [Py.bind]. rewrite Hrep. reflexivity.
      * apply (all_true_mask below_bound). intros c Hin.
        apply select_own_mask in Hin. exact Hin.
      * exact Hm.
      * rewrite length_map, Hlen_area. apply Nat.le_refl.
    + apply all_true_mask. intros c Hin. apply select_In in Hin.
      apply select_own_mask in Hin. exact Hin.
    + exact Hm.
    + rewrite length_map, Hlen_nb. apply Nat.le_refl.
  - unfold clean, drop_identifiers, drop.
    assert (Ho : has_column "Order" out = false).
    { rewrite (has_column_cleaned _ _ _ Hc).
      eapply dropped_columns_absent; [exact Hdrop | simpl; auto]. }
    assert (Hp : has_column "PID" out = false).
    { rewrite (has_column_cleaned _ _ _ Hc).
      eapply dropped_columns_absent; [exact Hdrop | simpl; auto]. }
    cbn [filter]. rewrite Ho, Hp. reflexivity.
Qed.

Lemma cleaning_after_the_drop_is_idempotent_witness :
  (rectangular 5 raw_frame = true /\ clean raw_frame = Ok cleaned_frame)
  /\ clean_rows_and_values cleaned_frame = Ok cleaned_frame
  /\ clean cleaned_frame = Raise (KeyError ["Order"; "PID"]).
Proof.
  split.
  - split; vm_compute; reflexivity.
  - apply (cleaning_after_the_drop_is_idempotent 5 raw_frame cleaned_frame);
      vm_compute; reflexivity.
Defined.

(** Against C8 as stated: the sample frame is cleaned once without error;
    cleaning the result a second time returns no frame at all, and so no
    identical one. *)
Lemma second_cleaning_raises :
  clean raw_frame = Ok cleaned_frame
  /\ clean cleaned_frame = Raise (KeyError ["Order"; "PID"])
  /\ clean cleaned_frame <> Ok cleaned_frame.
Proof.
  assert (Hsecond : clean cleaned_frame = Raise (KeyError ["Order"; "PID"]))
    by (vm_compute; reflexivity).
  split; [| split].
  - vm_compute. reflexivity.
  - exact Hsecond.
  - intros Hsame. rewrite Hsecond in Hsame. discriminate Hsame.
Qed.

End RerunClaims.

(** ** The numerical pipeline over exact rationals *)

Section ScalerFacts.

Local Open Scope Q_scope.

Lemma Qltb_false p q : Qltb p q = false -> q <= p.
Proof.
  unfold Qltb. intros Hf. apply negb_false_iff in Hf.
  apply Qle_bool_iff. exact Hf.
Qed.

Lemma num_min_le (a b : Q) : num_min a b <= a /\ num_min a b <= b.
Proof.
  unfold num_min. cbn [num_lt rational].
  destruct (Qltb b a) eqn:E.
  - apply Qltb_lt in E. split; [apply Qlt_le_weak; exact E | apply Qle_refl].
  - apply Qltb_false in E. split; [apply Qle_refl | exact E].
Qed.

Lemma num_max_ge (a b : Q) : a <= num_max a b /\ b <= num_max a b.
Proof.
  unfold num_max. cbn [num_lt rational].
  destruct (Qltb a b) eqn:E.
  - apply Qltb_lt in E. split; [apply Qlt_le_weak; exact E | apply Qle_refl].
  - apply Qltb_false in E. split; [apply Qle_refl | exact E].
Qed.

Lemma fold_min_le (l : list Q) (acc : Q) :
  fold_left num_min l acc <= acc
  /\ forall y, In y l -> fold_left num_min l acc <= y.
Proof.
  revert acc. induction l as [| x rest IH]; intros acc; simpl.
  - split; [apply Qle_refl | tauto].
  - destruct (IH (num_min acc x)) as [Hacc Hrest].
    destruct (num_min_le acc x) as [Ha Hx]. split.
    + eapply Qle_trans; eauto.
    + intros y [<- | Hy]; [eapply Qle_trans; eauto | auto].
Qed.

Lemma fold_max_ge (l : list Q) (acc : Q) :
  acc <= fold_left num_max l acc
  /\ forall y, In y l -> y <= fold_left num_max l acc.
Proof.
  revert acc. induction l as [| x rest IH]; intros acc; simpl.
  - split; [apply Qle_refl | tauto].
  - destruct (IH (num_max acc x)) as [Hacc Hrest].
    destruct (num_max_ge acc x) as [Ha Hx]. split.
    + eapply Qle_trans; eauto.
    + intros y [<- | Hy]; [eapply Qle_trans; eauto | auto].
Qed.

Lemma data_min_le (col : list Q) x : In x col -> data_min col <= x.
Proof.
  destruct col as [| x0 rest]; [intros [] |]. simpl.
  destruct (fold_min_le rest x0) as [H0 Hrest].
  intros [<- | Hin]; auto.
Qed.

Lemma data_max_ge (col : list Q) x : In x col -> x <= data_max col.
Proof.
  destruct col as [| x0 rest]; [intros [] |]. simpl.
  destruct (fold_max_ge rest x0) as [H0 Hrest].
  intros [<- | Hin]; auto.
Qed.

Lemma fold_min_In (l : list Q) (acc : Q) :
  fold_left num_min l acc = acc \/ In (fold_left num_min l acc) l.
Proof.
  revert acc. induction l as [| x rest IH]; intros acc; simpl.
  - left. reflexivity.
  - destruct (IH (num_min acc x)) as [Heq | Hin].
    + rewrite Heq. unfold num_min. destruct (num_lt x acc); auto.
    + right. right. exact Hin.
Qed.

(** The minimum of a column with an entry is one of its entries. *)
Lemma data_min_In (col : list Q) : col <> [] -> In (data_min col) col.
Proof.
  destruct col as [| x0 rest]; [congruence |]. intros _. simpl.
  destruct (fold_min_In rest x0) as [-> | Hin]; auto.
Qed.

(** The divisor of the scaler is positive and bounds the spread of the
    column. *)
Lemma scale_divisor (col : list Q) x :
  In x col ->
  let h := handle_zeros_in_scale (num_sub (data_max col) (data_min col)) in
  0 < h /\ x - data_min col <= h /\ 0 <= x - data_min col.
Proof.
  intros Hin h. pose proof (data_min_le col x Hin) as Hmin.
  pose proof (data_max_ge col x Hin) as Hmax.
  unfold h, handle_zeros_in_scale. cbn [num_lt num_sub num_one num_ten_eps rational].
  destruct (Qltb (data_max col - data_min col) (10 # 4503599627370496)) eqn:E.
  - apply Qltb_lt in E.
    assert (Hsmall : (10 # 4503599627370496) < 1) by reflexivity.
    repeat split; lra.
  - apply Qltb_false in E.
    assert (Hpos : 0 < (10 # 4503599627370496)) by reflexivity.
    repeat split; lra.
Qed.

(** What the scaler computes for an entry, in closed form. *)
Lemma scaled_value (col : list Q) x :
  In x col ->
  let p := scaler_fit_column col in
  let h := handle_zeros_in_scale (num_sub (data_max col) (data_min col)) in
  num_add (num_mul x (scale_ p)) (min_ p) == (x - data_min col) / h.
Proof.
  intros Hin p h. destruct (scale_divisor col x Hin) as [Hh _]. fold h in Hh.
  unfold p, scaler_fit_column. cbn [scale_ min_].
  fold h. cbn [num_add num_mul num_sub num_div num_zero num_one rational].
  field. intros Hz. rewrite Hz in Hh. apply (Qlt_irrefl 0). exact Hh.
Qed.


Lemma scaled_minimum_is_zero (col : list Q) :
  col <> [] ->
  exists v, In v (scaler_transform_column (scaler_fit_column col) col) /\ v == 0.
Proof.
  intros Hne. pose proof (data_min_In col Hne) as Hin.
  exists (num_add (num_mul (data_min col) (scale_ (scaler_fit_column col)))
                  (min_ (scaler_fit_column col))).
  split.
  - unfold scaler_transform_column.
    apply (in_map (fun x => num_add (num_mul x (scale_ (scaler_fit_column col)))
                                    (min_ (scaler_fit_column col)))).
    exact Hin.
  - rewrite (scaled_value col _ Hin).
    destruct (scale_divisor col _ Hin) as [Hh _].
    set (h := handle_zeros_in_scale (num_sub (data_max col) (data_min col))) in *.
    field. intros Hz. rewrite Hz in Hh. apply (Qlt_irrefl 0). exact Hh.
Qed.

Lemma combine_map_self {U V} (f : U -> V) (l : list U) :
  combine (map f l) l = map (fun x => (f x, x)) l.
Proof. induction l as [| x rest IH]; simpl; [reflexivity | rewrite IH; reflexivity]. Qed.

Lemma scaler_fit_then_transform (cols : list (list Q)) :
  scaler_transform (scaler_fit cols) cols
  = map (fun col => scaler_transform_column (scaler_fit_column col) col) cols.
Proof.
  unfold scaler_transform, scaler_fit. rewrite combine_map_self, map_map.
  reflexivity.
Qed.

End ScalerFacts.

(** ** Claims about the numerical block *)

Section ScalerClaims.

Lemma column_transformer_fit_inv {A} `{Number A} (X : Features A) F :
  column_transformer_fit X = Ok F ->
  n_samples X <> 0
  /\ statistics_ F = imputer_fit (numerical X)
  /\ scalings_ F
     = scaler_fit (imputer_transform (imputer_fit (numerical X)) (numerical X))
  /\ categories_ F = encoder_fit (categorical X).
Proof.
  unfold column_transformer_fit. destruct (Nat.eqb (n_samples X) 0) eqn:E.
  - discriminate.
  - intros Hf. inversion Hf. simpl. apply Nat.eqb_neq in E. tauto.
Qed.

Lemma column_transformer_fit_total {A} `{Number A} (X : Features A) :
  0 < n_samples X -> exists F, column_transformer_fit X = Ok F.
Proof.
  intros Hn. unfold column_transformer_fit.
  destruct (Nat.eqb (n_samples X) 0) eqn:E.
  - apply Nat.eqb_eq in E. lia.
  - eauto.
Qed.




End ScalerClaims.

(** ** The one-hot encoder *)

Section EncoderFacts.

Lemma insert_string_perm v l : Permutation (insert_string v l) (v :: l).
Proof.
  induction l as [| c rest IH]; simpl.
  - apply Permutation_refl.
  - destruct (String.leb v c).
    + apply Permutation_refl.
    + eapply Permutation_trans; [apply perm_skip; exact IH | apply perm_swap].
Qed.

Lemma sorted_perm l : Permutation (fold_right insert_string [] l) l.
Proof.
  induction l as [| x rest IH]; simpl.
  - apply Permutation_refl.
  - eapply Permutation_trans; [apply insert_string_perm |].
    apply perm_skip. exact IH.
Qed.

Lemma categories_perm col : Permutation (categories col) (nodup string_dec col).
Proof. apply sorted_perm. Qed.

Lemma categories_length col :
  List.length (categories col) = List.length (nodup string_dec col).
Proof. apply Permutation_length. apply categories_perm. Qed.

Lemma categories_In col v : In v (categories col) <-> In v col.
Proof.
  split; intros Hin.
  - apply (nodup_In string_dec).
    eapply Permutation_in; [apply categories_perm | exact Hin].
  - eapply Permutation_in; [apply Permutation_sym, categories_perm |].
    apply nodup_In. exact Hin.
Qed.

Lemma categories_nonempty col : col <> [] -> categories col <> [].
Proof.
  destruct col as [| v rest]; [congruence |]. intros _ Hnil.
  assert (Hin : In v (categories (v :: rest))) by (apply categories_In; left; reflexivity).
  rewrite Hnil in Hin. destruct Hin.
Qed.

Lemma index_of_None v cats : ~ In v cats -> index_of v cats = None.
Proof.
  induction cats as [| c rest IH]; simpl; intros Hn; [reflexivity |].
  destruct (String.eqb c v) eqn:E.
  - apply String.eqb_eq in E. tauto.
  - rewrite IH by tauto. reflexivity.
Qed.

Lemma index_of_head v cats : hd_error cats = Some v -> index_of v cats = Some 0.
Proof.
  destruct cats as [| c rest]; simpl; [discriminate |].
  intros Hh. inversion Hh. rewrite String.eqb_refl. reflexivity.
Qed.

Lemma indicator_length (width : nat) hot :
  List.length (indicator (A := Q) width hot) = width.
Proof. unfold indicator. rewrite length_map. apply length_seq. Qed.

Lemma encode_length cats v :
  List.length (encode (A := Q) cats v) = List.length cats - 1.
Proof.
  unfold encode. destruct (index_of v cats) as [[| i] |]; apply indicator_length.
Qed.

Lemma indicator_none_zero width x :
  In x (indicator (A := Q) width None) -> x = 0%Q.
Proof.
  unfold indicator. intros Hin. apply in_map_iff in Hin.
  destruct Hin as [j [<- _]]. reflexivity.
Qed.


Lemma hot_below_range i start width :
  i < start ->
  filter is_set (map (fun j => if Nat.eqb i j then 1%Q else 0%Q) (seq start width))
  = [].
Proof.
  revert start. induction width as [| w IH]; intros start Hlt; simpl.
  - reflexivity.
  - destruct (Nat.eqb i start) eqn:E.
    + apply Nat.eqb_eq in E. lia.
    + simpl. apply IH. lia.
Qed.

Lemma at_most_one_hot i start width :
  List.length
    (filter is_set (map (fun j => if Nat.eqb i j then 1%Q else 0%Q) (seq start width)))
  <= 1.
Proof.
  revert start. induction width as [| w IH]; intros start; simpl.
  - lia.
  - destruct (Nat.eqb i start) eqn:E.
    + apply Nat.eqb_eq in E. simpl. rewrite hot_below_range by lia. simpl. lia.
    + simpl. apply IH.
Qed.

Lemma indicator_at_most_one width hot :
  List.length (filter is_set (indicator (A := Q) width hot)) <= 1.
Proof.
  unfold indicator. destruct hot as [i |].
  - apply at_most_one_hot.
  - cbn [num_zero rational]. induction (seq 0 width) as [| j rest IH]; simpl; lia.
Qed.


Lemma nth_map_entry {U V} (f : U -> V) (l : list U) i x d :
  nth_error l i = Some x -> nth i (map f l) d = f x.
Proof.
  revert i. induction l as [| y rest IH]; intros [| i]; simpl; try discriminate.
  - intros Hx. inversion Hx. reflexivity.
  - apply IH.
Qed.


End EncoderFacts.

Section EncoderClaims.



Lemma encode_reference_or_unknown cats v x :
  ~ In v cats \/ hd_error cats = Some v ->
  In x (encode (A := Q) cats v) -> x = 0%Q.
Proof.
  unfold encode. intros [Hunknown | Hfirst].
  - rewrite index_of_None by exact Hunknown. apply indicator_none_zero.
  - rewrite index_of_head by exact Hfirst. apply indicator_none_zero.
Qed.



(** The sample block: categories FV, RH, RL; FV is dropped, so RH sets the
    first indicator, the unseen value none, and FV none. *)
Example one_hot_sample :
  categories ["RL"; "RH"; "FV"; "RL"] = ["FV"; "RH"; "RL"]
  /\ map (row_of (encoder_transform_column (A := Q)
                    (categories ["RL"; "RH"; "FV"; "RL"])
                    ["RH"; "C (all)"; "FV"; "RL"]))
         [0; 1; 2; 3]
     = [[1; 0]; [0; 0]; [0; 0]; [0; 1]]%Q.
Proof. split; reflexivity. Qed.

End EncoderClaims.

(** ** The design matrix and the heteroskedasticity check *)

Section DesignFacts.

Local Open Scope Q_scope.

(** A column with a zero entry cannot pass for the constant. *)
Lemma zero_entry_not_constant (col : list Q) v :
  In v col -> v == 0 -> is_constant_column (data_max col, data_min col) = false.
Proof.
  intros Hin Hz. unfold is_constant_column. cbn [fst snd].
  pose proof (data_min_le col v Hin) as Hmin.
  pose proof (data_max_ge col v Hin) as Hmax.
  destruct (Qeq_bool (data_max col - data_min col) 0) eqn:Hconst; [| reflexivity].
  apply Qeq_bool_iff in Hconst. simpl.
  apply negb_false_iff. apply Qeq_bool_iff. lra.
Qed.

Lemma extremes_of_zero_columns (x : matrix) :
  (forall col, In col x -> exists v, In v col /\ v == 0) ->
  exists ext, column_extremes x = Some ext
              /\ existsb is_constant_column ext = false.
Proof.
  induction x as [| col rest IH]; intros Hz.
  - exists []. split; reflexivity.
  - destruct IH as [ext [Hext Hnone]]; [intros c Hc; apply Hz; right; exact Hc |].
    destruct (Hz col (or_introl eq_refl)) as [v [Hv Hv0]].
    simpl. rewrite Hext. destruct col as [| x0 col']; [destruct Hv |].
    exists ((data_max (x0 :: col'), data_min (x0 :: col')) :: ext).
    split; [reflexivity |].
    cbn [existsb]. rewrite Hnone.
    rewrite (zero_entry_not_constant (x0 :: col') v Hv Hv0). reflexivity.
Qed.

Lemma check_het_test_rejects (x : matrix) test_name :
  (forall col, In col x -> exists v, In v col /\ v == 0) ->
  check_het_test x test_name = Raise (ValueError (het_message test_name)).
Proof.
  intros Hz. unfold check_het_test.
  destruct (extremes_of_zero_columns x Hz) as [ext [-> Hnone]].
  rewrite Hnone. reflexivity.
Qed.

Lemma imputed_column (stats : list (option Q)) cols c :
  In c (imputer_transform stats cols) ->
  exists m c0, In c0 cols /\ c = fill_missing m c0.
Proof.
  unfold imputer_transform. intros Hin. apply in_flat_map in Hin.
  destruct Hin as [[o c0] [Hpair Hin]]. apply in_combine_r in Hpair.
  simpl in Hin. destruct o as [m |]; [| destruct Hin].
  destruct Hin as [<- | []]. eauto.
Qed.

Lemma numerical_column_has_zero (X : Features Q) F col :
  column_transformer_fit X = Ok F ->
  (forall c, In c (numerical X) -> c <> []) ->
  In col (numerical_block F X) -> exists v, In v col /\ v == 0.
Proof.
  intros Hfit Hne Hcol.
  destruct (column_transformer_fit_inv X F Hfit) as [_ [Hstat [Hscal _]]].
  unfold numerical_block in Hcol. rewrite Hscal, Hstat in Hcol.
  rewrite scaler_fit_then_transform in Hcol. apply in_map_iff in Hcol.
  destruct Hcol as [c [<- Hc]]. apply scaled_minimum_is_zero.
  apply imputed_column in Hc. destruct Hc as [m [c0 [Hc0 ->]]].
  specialize (Hne c0 Hc0). destruct c0; [congruence | discriminate].
Qed.

Lemma categorical_column_has_zero (X : Features Q) F col :
  column_transformer_fit X = Ok F ->
  (forall c, In c (categorical X) -> c <> []) ->
  In col (categorical_block F X) -> exists v, In v col /\ v == 0.
Proof.
  intros Hfit Hne Hcol.
  destruct (column_transformer_fit_inv X F Hfit) as [_ [_ [_ Hcat]]].
  unfold categorical_block, encoder_transform in Hcol. rewrite Hcat in Hcol.
  unfold encoder_fit in Hcol. rewrite combine_map_self in Hcol.
  apply in_flat_map in Hcol. destruct Hcol as [[cats c0] [Hpair Hcol]].
  apply in_map_iff in Hpair. destruct Hpair as [c0' [Heq Hc0]].
  inversion Heq; subst cats c0'. clear Heq. cbn [fst snd] in Hcol.
  unfold encoder_transform_column in Hcol. apply in_map_iff in Hcol.
  destruct Hcol as [j [<- Hj]]. apply in_seq in Hj.
  pose proof (categories_nonempty c0 (Hne c0 Hc0)) as Hcats.
  destruct (categories c0) as [| first others] eqn:Ecats; [congruence |].
  assert (Hfirst : In first c0).
  { apply categories_In. rewrite Ecats. left. reflexivity. }
  exists (nth j (encode (first :: others) first) num_zero). split.
  - apply (in_map (fun v => nth j (encode (A := Q) (first :: others) v) num_zero)).
    exact Hfirst.
  - assert (Hzero : nth j (encode (A := Q) (first :: others) first) num_zero = 0).
    { apply (encode_reference_or_unknown (first :: others) first).
      - right. reflexivity.
      - apply nth_In. rewrite encode_length. simpl in *. lia. }
    rewrite Hzero. reflexivity.
Qed.

Lemma well_shaped_columns (X : Features Q) :
  well_shaped X = true -> (0 < n_samples X)%nat ->
  (forall c, In c (numerical X) -> c <> [])
  /\ (forall c, In c (categorical X) -> c <> []).
Proof.
  unfold well_shaped. intros Hw Hn. apply andb_true_iff in Hw.
  destruct Hw as [Hnum Hcat]. rewrite forallb_forall in Hnum, Hcat.
  split; intros c Hc ->.
  - specialize (Hnum _ Hc). apply Nat.eqb_eq in Hnum. simpl in Hnum. lia.
  - specialize (Hcat _ Hc). apply Nat.eqb_eq in Hcat. simpl in Hcat. lia.
Qed.

(** Fitted and applied to the same data, the transformer returns a matrix
    in which every column has a zero entry. *)
Lemma design_columns_have_zero (X : Features Q) F col :
  well_shaped X = true -> column_transformer_fit X = Ok F ->
  In col (column_transformer_transform F X) -> exists v, In v col /\ v == 0.
Proof.
  intros Hw Hfit Hcol.
  assert (Hn : (0 < n_samples X)%nat).
  { destruct (column_transformer_fit_inv X F Hfit) as [Hn _]. lia. }
  destruct (well_shaped_columns X Hw Hn) as [Hnum Hcat].
  unfold column_transformer_transform in Hcol. apply in_app_or in Hcol.
  destruct Hcol as [Hcol | Hcol].
  - eapply numerical_column_has_zero; eauto.
  - eapply categorical_column_has_zero; eauto.
Qed.

End DesignFacts.

(** ** The runner *)

Section RunnerFacts.

Variable str_float : Q -> string.

Lemma append_assoc (a b c : string) : ((a ++ b) ++ c = a ++ b ++ c)%string.
Proof. induction a as [| ch a IH]; simpl; [reflexivity | rewrite IH; reflexivity]. Qed.

Lemma append_empty_r (a : string) : (a ++ "" = a)%string.
Proof. induction a as [| ch a IH]; simpl; [reflexivity | rewrite IH; reflexivity]. Qed.

(** The loop [text += ...] appends the lines in order. *)
Lemma accumulated_text (named : list (string * Q)) (text : string) :
  fold_left (fun text ns =>
               (text ++ indent ++ fst ns ++ ": " ++ str_float (snd ns) ++ nl)%string)
            named text
  = (text ++ join (map (fun ns => stat_line str_float (fst ns) (snd ns)) named))%string.
Proof.
  revert text. induction named as [| ns rest IH]; intros text; simpl.
  - rewrite append_empty_r. reflexivity.
  - rewrite IH. unfold stat_line. rewrite append_assoc. reflexivity.
Qed.

Lemma display_test_prints {M} (m : M) title names test score out :
  test m = Ok score ->
  display_test str_float m title names test out
  = (Ok tt, (out ++ block str_float title (combine names score) ++ nl)%string).
Proof.
  intros Hs. unfold display_test, io_bind, call, print. rewrite Hs.
  rewrite accumulated_text. unfold block.
  rewrite !append_assoc. reflexivity.
Qed.

Lemma display_test_raises {M} (m : M) title names test e out :
  test m = Raise e ->
  display_test str_float m title names test out = (Raise e, out).
Proof. intros Hs. unfold display_test, io_bind, call. rewrite Hs. reflexivity. Qed.

Variable linear_rainbow : RegressionResults -> result (Q * Q).
Variable linear_harvey_collier : RegressionResults -> nat -> result (Q * Q).
Variable jarque_bera : list Q -> result (Q * Q * Q * Q).
Variable breuschpagan_statistics : list Q -> matrix -> Q * Q * Q * Q.
Variable fitted : RegressionResults.
Variable df : matrix.

Local Abbreviation returned_by :=
  (returned linear_rainbow linear_harvey_collier jarque_bera
            breuschpagan_statistics fitted df).
Local Abbreviation invoked :=
  (invoke str_float linear_rainbow linear_harvey_collier jarque_bera
          breuschpagan_statistics fitted df).
Local Abbreviation cell_of :=
  (run_cell str_float linear_rainbow linear_harvey_collier jarque_bera
            breuschpagan_statistics fitted df).

Lemma invoke_prints d score out :
  returned_by d = Ok score ->
  invoked d out
  = (Ok tt, (out ++ block str_float (title d) (combine (stats d) score) ++ nl)%string).
Proof. destruct d; intros Hr; apply display_test_prints; exact Hr. Qed.

Lemma invoke_raises d e out :
  returned_by d = Raise e -> invoked d out = (Raise e, out).
Proof. destruct d; intros Hr; apply display_test_raises; exact Hr. Qed.

(** A cell whose test succeeds prints the block, guarded or not. *)
Lemma cell_prints d score out :
  returned_by d = Ok score ->
  cell_of d out
  = (Ok tt, (out ++ block str_float (title d) (combine (stats d) score) ++ nl)%string).
Proof.
  intros Hr. pose proof (invoke_prints d score out Hr) as Hi.
  destruct d; unfold run_cell, try_except; rewrite Hi; reflexivity.
Qed.

(** A guarded cell whose test raises prints the message and ends normally. *)
Lemma guarded_failure_is_printed d e out :
  d <> Rainbow -> returned_by d = Raise e ->
  cell_of d out = (Ok tt, (out ++ str_exn e ++ nl)%string).
Proof.
  intros Hd Hr. pose proof (invoke_raises d e out Hr) as Hi.
  destruct d; [congruence | | |];
    unfold run_cell, try_except; rewrite Hi; reflexivity.
Qed.

(** The bare cell lets the exception through and prints nothing. *)
Lemma bare_failure_escapes e out :
  returned_by Rainbow = Raise e -> cell_of Rainbow out = (Raise e, out).
Proof. intros Hr. unfold run_cell. apply invoke_raises. exact Hr. Qed.

(** The shape of what each test returns. *)
Lemma returned_arity d score :
  returned_by d = Ok score -> List.length score = List.length (stats d).
Proof.
  destruct d; simpl; unfold pair_stats, quad_stats; intros Hr;
    apply result_bind_ok in Hr; destruct Hr as [t [_ Hr]].
  - inversion Hr. reflexivity.
  - inversion Hr. reflexivity.
  - destruct t as [[[a b] c] d]. inversion Hr. reflexivity.
  - destruct t as [[[a b] c] d]. inversion Hr. reflexivity.
Qed.

End RunnerFacts.

(** ** Claims about the runner *)

Section RunnerClaims.



Lemma combine_covers_right {U V} (l : list U) (l' : list V) :
  List.length l' <= List.length l -> map snd (combine l l') = l'.
Proof.
  revert l'. induction l as [| x rest IH]; intros [| y rest'] Hlen;
    simpl in *; try reflexivity; try lia.
  f_equal. apply IH. lia.
Qed.



(** C9. When the test of a diagnostic cell returns its statistics, the cell
    prints one block: the line "<Title> test:", then one line made of four
    spaces, the name, a colon and a space, and the value, for each returned
    statistic, then an empty line; two such cells in a row print two blocks
    with the empty line between.  The four spaces and the line feeds are
    written out in the statement. *)
Theorem successful_test_prints_one_block
    (str_float : Q -> string)
    (linear_rainbow : RegressionResults -> result (Q * Q))
    (linear_harvey_collier : RegressionResults -> nat -> result (Q * Q))
    (jarque_bera : list Q -> result (Q * Q * Q * Q))
    (breuschpagan_statistics : list Q -> matrix -> Q * Q * Q * Q)
    (fitted : RegressionResults) (df : matrix)
    (d : diagnostic) (score : list Q) (out : string) :
  returned linear_rainbow linear_harvey_collier jarque_bera
           breuschpagan_statistics fitted df d = Ok score ->
  run_cell str_float linear_rainbow linear_harvey_collier jarque_bera
           breuschpagan_statistics fitted df d out
  = (Ok tt,
     (out ++ title d ++ " test:" ++ LF
          ++ join (map (fun ns => "    " ++ fst ns ++ ": " ++ str_float (snd ns) ++ LF)
                       (combine (stats d) score))
          ++ LF)%string)
  /\ List.length (combine (stats d) score) = List.length score
  /\ map snd (combine (stats d) score) = score
  /\ forall d' score',
       returned linear_rainbow linear_harvey_collier jarque_bera
                breuschpagan_statistics fitted df d' = Ok score' ->
       (run_cell str_float linear_rainbow linear_harvey_collier jarque_bera
                 breuschpagan_statistics fitted df d ;;;
        run_cell str_float linear_rainbow linear_harvey_collier jarque_bera
                 breuschpagan_statistics fitted df d') out
       = (Ok tt,
          (out ++ title d ++ " test:" ++ LF
               ++ join (map (fun ns => "    " ++ fst ns ++ ": " ++ str_float (snd ns) ++ LF)
                            (combine (stats d) score))
               ++ LF
               ++ title d' ++ " test:" ++ LF
               ++ join (map (fun ns => "    " ++ fst ns ++ ": " ++ str_float (snd ns) ++ LF)
                            (combine (stats d') score'))
               ++ LF)%string).
Proof.
  intros Hr.
  pose proof (returned_arity _ _ _ _ _ _ d score Hr) as Hlen.
  pose proof (cell_prints str_float _ _ _ _ _ _ d score out Hr) as Hcell.
  split; [| split; [| split]].
  - rewrite Hcell. unfold block, stat_line. rewrite !append_assoc. reflexivity.
  - rewrite length_combine. lia.
  - apply combine_covers_right. lia.
  - intros d' score' Hr'. unfold io_bind. rewrite Hcell.
    rewrite (cell_prints str_float _ _ _ _ _ _ d' score' _ Hr').
    unfold block, stat_line. rewrite !append_assoc. reflexivity.
Qed.

Lemma successful_test_prints_one_block_witness :
  returned (fun _ => Ok (1%Q, 0%Q)) (fun _ _ => Ok (1%Q, 0%Q))
           (fun _ => Ok (1%Q, 0%Q, 1%Q, 1%Q))
           (fun _ _ => (1%Q, 0%Q, 1%Q, 0%Q)) sample_results [] JarqueBera
  = Ok [1%Q; 0%Q; 1%Q; 1%Q]
  /\ run_cell show_sign (fun _ => Ok (1%Q, 0%Q)) (fun _ _ => Ok (1%Q, 0%Q))
              (fun _ => Ok (1%Q, 0%Q, 1%Q, 1%Q))
              (fun _ _ => (1%Q, 0%Q, 1%Q, 0%Q)) sample_results [] JarqueBera ""
     = (Ok tt,
        ("Jarque-Bera test:" ++ LF
         ++ "    score: +" ++ LF
         ++ "    p-value: 0" ++ LF
         ++ "    skew: +" ++ LF
         ++ "    kurtosis: +" ++ LF
         ++ LF)%string).
Proof.
  split.
  - reflexivity.
  - apply (successful_test_prints_one_block show_sign
             (fun _ => Ok (1%Q, 0%Q)) (fun _ _ => Ok (1%Q, 0%Q))
             (fun _ => Ok (1%Q, 0%Q, 1%Q, 1%Q))
             (fun _ _ => (1%Q, 0%Q, 1%Q, 0%Q)) sample_results [] JarqueBera
             [1%Q; 0%Q; 1%Q; 1%Q] "").
    reflexivity.
Defined.

End RunnerClaims.

Section FailureClaims.

(** A guarded cell always ends normally, whatever its test does. *)
Lemma guarded_cell_always_completes
    (str_float : Q -> string)
    (linear_rainbow : RegressionResults -> result (Q * Q))
    (linear_harvey_collier : RegressionResults -> nat -> result (Q * Q))
    (jarque_bera : list Q -> result (Q * Q * Q * Q))
    (breuschpagan_statistics : list Q -> matrix -> Q * Q * Q * Q)
    (fitted : RegressionResults) (df : matrix) (d : diagnostic) (out : string) :
  d <> Rainbow ->
  exists text,
    run_cell str_float linear_rainbow linear_harvey_collier jarque_bera
             breuschpagan_statistics fitted df d out
    = (Ok tt, (out ++ text)%string).
Proof.
  intros Hd.
  destruct (returned linear_rainbow linear_harvey_collier jarque_bera
                     breuschpagan_statistics fitted df d) as [score | e] eqn:Hr.
  - eexists. eapply cell_prints. exact Hr.
  - eexists. eapply guarded_failure_is_printed; eassumption.
Qed.

(** C1, at the input where the code departs from it. When the Rainbow test
    raises, the exception leaves cell 21 uncaught: nothing is printed, not
    even the message, and none of the three later diagnostics is run. *)
Theorem rainbow_failure_aborts_the_run
    (str_float : Q -> string)
    (linear_rainbow : RegressionResults -> result (Q * Q))
    (linear_harvey_collier : RegressionResults -> nat -> result (Q * Q))
    (jarque_bera : list Q -> result (Q * Q * Q * Q))
    (breuschpagan_statistics : list Q -> matrix -> Q * Q * Q * Q)
    (fitted : RegressionResults) (df : matrix) (e : exn) (out : string) :
  linear_rainbow fitted = Raise e ->
  run_cell str_float linear_rainbow linear_harvey_collier jarque_bera
           breuschpagan_statistics fitted df Rainbow out
  = (Raise e, out)
  /\ diagnostics str_float linear_rainbow linear_harvey_collier jarque_bera
                 breuschpagan_statistics fitted df out
     = (Raise e, out).
Proof.
  intros Hraise.
  assert (Hcell : run_cell str_float linear_rainbow linear_harvey_collier
                    jarque_bera breuschpagan_statistics fitted df Rainbow out
                  = (Raise e, out)).
  { apply bare_failure_escapes. cbn [returned]. rewrite Hraise. reflexivity. }
  split; [exact Hcell |].
  unfold diagnostics, io_bind. rewrite Hcell. reflexivity.
Qed.

Lemma rainbow_failure_aborts_the_run_witness :
  (fun _ : RegressionResults => @Raise (Q * Q) (ValueError "zero-size array"))
    sample_results
  = Raise (ValueError "zero-size array")
  /\ diagnostics show_sign
       (fun _ => Raise (ValueError "zero-size array"))
       (fun _ _ => Ok (1%Q, 0%Q)) (fun _ => Ok (1%Q, 0%Q, 1%Q, 1%Q))
       (fun _ _ => (1%Q, 0%Q, 1%Q, 0%Q)) sample_results [] ""
     = (Raise (ValueError "zero-size array"), "").
Proof.
  split.
  - reflexivity.
  - apply (rainbow_failure_aborts_the_run show_sign
             (fun _ => Raise (ValueError "zero-size array"))
             (fun _ _ => Ok (1%Q, 0%Q)) (fun _ => Ok (1%Q, 0%Q, 1%Q, 1%Q))
             (fun _ _ => (1%Q, 0%Q, 1%Q, 0%Q)) sample_results []
             (ValueError "zero-size array") "").
    reflexivity.
Defined.

(** The same failure in a guarded cell: the message is printed and the run
    goes on to the cells after it. *)
Lemma harvey_collier_failure_is_survived
    (str_float : Q -> string)
    (breuschpagan_statistics : list Q -> matrix -> Q * Q * Q * Q)
    (fitted : RegressionResults) (df : matrix) (msg : string) (out : string) :
  exists text,
    diagnostics str_float (fun _ => Ok (1%Q, 0%Q))
                (fun _ _ => Raise (ValueError msg))
                (fun _ => Ok (1%Q, 0%Q, 1%Q, 1%Q))
                breuschpagan_statistics fitted df out
    = (Ok tt,
       (out ++ block str_float "Rainbow" [("score", 1%Q); ("p-value", 0%Q)] ++ nl
            ++ msg ++ nl
            ++ block str_float "Jarque-Bera"
                 [("score", 1%Q); ("p-value", 0%Q); ("skew", 1%Q); ("kurtosis", 1%Q)]
            ++ nl ++ text)%string).
Proof.
  set (rainbow := fun _ : RegressionResults => Ok (1%Q, 0%Q)).
  set (harvey := fun (_ : RegressionResults) (_ : nat) =>
                   @Raise (Q * Q) (ValueError msg)).
  set (jarque := fun _ : list Q => Ok (1%Q, 0%Q, 1%Q, 1%Q)).
  unfold diagnostics, io_bind.
  rewrite (cell_prints str_float rainbow harvey jarque breuschpagan_statistics
             fitted df Rainbow [1%Q; 0%Q] out eq_refl).
  rewrite (guarded_failure_is_printed str_float rainbow harvey jarque
             breuschpagan_statistics fitted df HarveyCollier (ValueError msg) _
             ltac:(discriminate) eq_refl).
  rewrite (cell_prints str_float rainbow harvey jarque breuschpagan_statistics
             fitted df JarqueBera [1%Q; 0%Q; 1%Q; 1%Q] _ eq_refl).
  destruct (guarded_cell_always_completes str_float rainbow harvey jarque
              breuschpagan_statistics fitted df BreuschPagan
              (((out ++ block str_float (title Rainbow)
                          (combine (stats Rainbow) [1%Q; 0%Q]) ++ nl)
                 ++ str_exn (ValueError msg) ++ nl)
                ++ block str_float (title JarqueBera)
                     (combine (stats JarqueBera) [1%Q; 0%Q; 1%Q; 1%Q]) ++ nl)%string
              ltac:(discriminate)) as [text Htext].
  exists text. rewrite Htext. cbn [title stats combine str_exn].
  rewrite !append_assoc. reflexivity.
Qed.

(** C2. The model of cell 18 keeps the transformed frame as its regressors,
    with no column added; for a frame with at least one row, no column of
    that matrix passes for the constant, so the Breusch-Pagan test raises at
    its check instead of returning statistics, and cell 29 prints the
    message of the check. *)
Theorem breusch_pagan_rejects_the_fitted_design
    (str_float : Q -> string)
    (lstsq : matrix -> list Q -> list Q)
    (linear_rainbow : RegressionResults -> result (Q * Q))
    (linear_harvey_collier : RegressionResults -> nat -> result (Q * Q))
    (jarque_bera : list Q -> result (Q * Q * Q * Q))
    (breuschpagan_statistics : list Q -> matrix -> Q * Q * Q * Q)
    (X : Features Q) (y : list Q) (out : string) :
  well_shaped X = true ->
  0 < n_samples X ->
  exists F,
    column_transformer_fit X = Ok F
    /\ exog (model (fit lstsq (OLS y (column_transformer_transform F X) false)))
       = column_transformer_transform F X
    /\ het_breuschpagan breuschpagan_statistics
         (resid (fit lstsq (OLS y (column_transformer_transform F X) false)))
         (exog (model (fit lstsq (OLS y (column_transformer_transform F X) false))))
       = Raise (ValueError
           "The Breusch-Pagan test requires exog to have at least two columns where one is a constant.")
    /\ run_cell str_float linear_rainbow linear_harvey_collier jarque_bera
         breuschpagan_statistics
         (fit lstsq (OLS y (column_transformer_transform F X) false))
         (column_transformer_transform F X) BreuschPagan out
       = (Ok tt,
          (out ++ "The Breusch-Pagan test requires exog to have at least two columns where one is a constant."
               ++ nl)%string).
Proof.
  intros Hshape Hrows.
  destruct (column_transformer_fit_total X Hrows) as [F Hfit].
  exists F. split; [exact Hfit |]. split; [reflexivity |].
  assert (Hbp : het_breuschpagan breuschpagan_statistics
                  (resid (fit lstsq (OLS y (column_transformer_transform F X) false)))
                  (column_transformer_transform F X)
                = Raise (ValueError (het_message "The Breusch-Pagan"))).
  { unfold het_breuschpagan. rewrite check_het_test_rejects; [reflexivity |].
    intros col Hcol. eapply design_columns_have_zero; eauto. }
  split; [exact Hbp |].
  apply (guarded_failure_is_printed str_float linear_rainbow linear_harvey_collier
           jarque_bera breuschpagan_statistics _ _ BreuschPagan
           (ValueError (het_message "The Breusch-Pagan")) out).
  - discriminate.
  - cbn [returned fit model exog]. rewrite Hbp. reflexivity.
Qed.

Lemma breusch_pagan_rejects_the_fitted_design_witness :
  (well_shaped three_houses = true /\ 0 < n_samples three_houses)
  /\ exists F,
       column_transformer_fit three_houses = Ok F
       /\ exog (model (fit (fun _ _ => [])
                         (OLS [208500%Q; 181500%Q; 223500%Q]
                              (column_transformer_transform F three_houses) false)))
          = column_transformer_transform F three_houses
       /\ het_breuschpagan (fun _ _ => (0%Q, 1%Q, 0%Q, 1%Q))
            (resid (fit (fun _ _ => [])
                      (OLS [208500%Q; 181500%Q; 223500%Q]
                           (column_transformer_transform F three_houses) false)))
            (exog (model (fit (fun _ _ => [])
                            (OLS [208500%Q; 181500%Q; 223500%Q]
                                 (column_transformer_transform F three_houses) false))))
          = Raise (ValueError
              "The Breusch-Pagan test requires exog to have at least two columns where one is a constant.").
Proof.
  split.
  - split; [reflexivity | vm_compute; lia].
  - destruct (breusch_pagan_rejects_the_fitted_design show_sign (fun _ _ => [])
                (fun _ => Ok (1%Q, 0%Q)) (fun _ _ => Ok (1%Q, 0%Q))
                (fun _ => Ok (1%Q, 0%Q, 1%Q, 1%Q))
                (fun _ _ => (0%Q, 1%Q, 0%Q, 1%Q))
                three_houses [208500%Q; 181500%Q; 223500%Q] "")
      as [F [Hfit [Hexog [Hbp _]]]].
    + reflexivity.
    + vm_compute; lia.
    + exists F. split; [exact Hfit |]. split; [exact Hexog | exact Hbp].
Defined.

(** The sample design: the scaled lot frontage and one indicator of the
    zoning; the street has a single category and yields no column. *)
Example three_houses_design :
  map (map Qred)
      (column_transformer_transform (fitted_on three_houses) three_houses)
  = [[1; 1 # 2; 0]; [1; 0; 1]]%Q.
Proof. vm_compute. reflexivity. Qed.

End FailureClaims.

(** * Further properties of the notebook *)

(** ** Column labels (cell 4) *)

Section LabelFacts.

Lemma strip_dots_no_dot s :
  ~ In "."%char (list_ascii_of_string (strip_dots s)).
Proof.
  induction s as [| ch rest IH]; simpl; [tauto |].
  destruct (Ascii.eqb ch ".") eqn:E; [exact IH |].
  simpl. intros [Heq | Hin]; [| tauto].
  apply Ascii.eqb_neq in E. congruence.
Qed.

Lemma strip_dots_fixed s :
  ~ In "."%char (list_ascii_of_string s) -> strip_dots s = s.
Proof.
  induction s as [| ch rest IH]; simpl; intros Hno; [reflexivity |].
  destruct (Ascii.eqb ch ".") eqn:E.
  - apply Ascii.eqb_eq in E. tauto.
  - rewrite IH by tauto. reflexivity.
Qed.

Lemma strip_dots_idempotent s : strip_dots (strip_dots s) = strip_dots s.
Proof. apply strip_dots_fixed. apply strip_dots_no_dot. Qed.

Lemma getitem_first (df : DataFrame) j name s :
  nth_error df j = Some (name, s) ->
  (forall j' other, j' < j -> nth_error df j' = Some other -> fst other <> name) ->
  getitem name df = Ok s.
Proof.
  revert j. induction df as [| [n c] rest IH]; intros [| j] Hj Hfirst;
    simpl in *; try discriminate.
  - inversion Hj. rewrite String.eqb_refl. reflexivity.
  - destruct (String.eqb n name) eqn:E.
    + apply String.eqb_eq in E. exfalso.
      apply (Hfirst 0 (n, c)); [lia | reflexivity | exact E].
    + apply (IH j Hj). intros j' other Hlt Hother.
      apply (Hfirst (S j') other); [lia | exact Hother].
Qed.

Lemma strip_dots_filter s :
  list_ascii_of_string (strip_dots s)
  = filter (fun ch => negb (Ascii.eqb ch ".")) (list_ascii_of_string s).
Proof.
  induction s as [| ch rest IH]; simpl; [reflexivity |].
  destruct (Ascii.eqb ch "."); simpl; rewrite IH; reflexivity.
Qed.

(** X1. The relabelling of cell 4 keeps the number, the order and the
    entries of the columns; every new label is the old one with its full
    stops left out, the other characters kept in their order; so no new
    label has a full stop and relabelling twice changes nothing more; and a
    column is then found under its stripped label, provided no other column
    of the frame, before or after it, strips to the same label. *)
Theorem normalize_columns_strips_only_labels (df : DataFrame) :
  map snd (normalize_columns df) = map snd df
  /\ map (fun col => list_ascii_of_string (fst col)) (normalize_columns df)
     = map (fun col => filter (fun ch => negb (Ascii.eqb ch "."))
                              (list_ascii_of_string (fst col))) df
  /\ (forall name, In name (map fst (normalize_columns df)) ->
        ~ In "."%char (list_ascii_of_string name))
  /\ normalize_columns (normalize_columns df) = normalize_columns df
  /\ forall j raw s,
       nth_error df j = Some (raw, s) ->
       (forall j' other, j' <> j -> nth_error df j' = Some other ->
          strip_dots (fst other) <> strip_dots raw) ->
       getitem (strip_dots raw) (normalize_columns df) = Ok s.
Proof.
  unfold normalize_columns. split; [| split; [| split; [| split]]].
  - rewrite map_map. reflexivity.
  - rewrite map_map. apply map_ext. intros [n s]. simpl.
    apply strip_dots_filter.
  - intros name Hin. rewrite map_map in Hin. apply in_map_iff in Hin.
    destruct Hin as [col [<- _]]. apply strip_dots_no_dot.
  - rewrite map_map. apply map_ext. intros [n s]. simpl.
    rewrite strip_dots_idempotent. reflexivity.
  - intros j raw s Hj Hunique. apply (getitem_first _ j).
    + rewrite nth_error_map, Hj. reflexivity.
    + intros j' other Hlt Hother. rewrite nth_error_map in Hother.
      destruct (nth_error df j') as [col |] eqn:Hcol; [| discriminate].
      inversion Hother. simpl. apply (Hunique j' col); [lia | exact Hcol].
Qed.

(** The living-area column of the raw file is the one cell 5 reads. *)
Example raw_living_area_is_found :
  getitem "GrLivArea" (normalize_columns raw_header_frame)
  = Ok [Num 1656; Num 896].
Proof. reflexivity. Qed.

End LabelFacts.

(** ** Dropping columns (cell 5, first line) *)

Section DropFacts.

Lemma has_column_In name (df : DataFrame) :
  has_column name df = true <-> exists s, In (name, s) df.
Proof.
  unfold has_column. rewrite existsb_exists. split.
  - intros [[n s] [Hin Hn]]. apply String.eqb_eq in Hn. simpl in Hn. subst n. eauto.
  - intros [s Hin]. exists (name, s). split; [exact Hin | apply String.eqb_refl].
Qed.

Lemma existsb_eqb_In name (labels : list string) :
  existsb (String.eqb name) labels = true <-> In name labels.
Proof.
  rewrite existsb_exists. split.
  - intros [l [Hin Hl]]. apply String.eqb_eq in Hl. congruence.
  - intros Hin. exists name. split; [exact Hin | apply String.eqb_refl].
Qed.

(** X2. When every label is a column, [drop] returns the frame without the
    columns that carry one of the labels: a column is in the result exactly
    when it is in the frame and its label is not listed, and the columns
    that stay keep their order. *)
Theorem drop_removes_exactly_the_labels (labels : list string) (df : DataFrame) :
  (forall l, In l labels -> has_column l df = true) ->
  exists out,
    drop labels df = Ok out
    /\ (forall name s, In (name, s) out <-> In (name, s) df /\ ~ In name labels)
    /\ (forall l, In l labels -> has_column l out = false)
    /\ out = filter (fun col => negb (existsb (String.eqb (fst col)) labels)) df.
Proof.
  intros Hall. eexists. unfold drop.
  assert (Hnone : filter (fun l => negb (has_column l df)) labels = []).
  { induction labels as [| l rest IH]; simpl; [reflexivity |].
    rewrite (Hall l) by (left; reflexivity). simpl.
    apply IH. intros l' Hl'. apply Hall. right. exact Hl'. }
  rewrite Hnone. split; [reflexivity |]. split; [| split; [| reflexivity]].
  - intros name s. rewrite filter_In. simpl. rewrite negb_true_iff.
    rewrite <- existsb_eqb_In. destruct (existsb (String.eqb name) labels);
      intuition congruence.
  - intros l Hl. apply not_true_is_false. intros Hc.
    apply has_column_In in Hc. destruct Hc as [s Hin].
    apply filter_In in Hin. destruct Hin as [_ Hkeep]. simpl in Hkeep.
    apply negb_true_iff in Hkeep.
    apply (proj2 (existsb_eqb_In l labels)) in Hl. congruence.
Qed.

Lemma drop_removes_exactly_the_labels_witness :
  (forall l, In l ["Order"; "PID"] -> has_column l raw_header_frame = true)
  /\ exists out,
       drop ["Order"; "PID"] raw_header_frame = Ok out
       /\ (forall name s,
             In (name, s) out
             <-> In (name, s) raw_header_frame /\ ~ In name ["Order"; "PID"])
       /\ (forall l, In l ["Order"; "PID"] -> has_column l out = false)
       /\ out = filter (fun col =>
                          negb (existsb (String.eqb (fst col)) ["Order"; "PID"]))
                       raw_header_frame.
Proof.
  assert (Hcols : forall l, In l ["Order"; "PID"] ->
                            has_column l raw_header_frame = true).
  { intros l [<- | [<- | []]]; reflexivity. }
  split.
  - exact Hcols.
  - apply (drop_removes_exactly_the_labels ["Order"; "PID"] raw_header_frame).
    exact Hcols.
Defined.

(** X3. When some label is not a column, [drop] returns no frame: it raises
    the KeyError that lists, in the order given, exactly the labels that are
    not columns. *)
Theorem drop_raises_on_absent_labels (labels : list string) (df : DataFrame) (l : string) :
  In l labels -> has_column l df = false ->
  exists missing,
    drop labels df = Raise (KeyError missing)
    /\ missing = filter (fun l => negb (has_column l df)) labels
    /\ In l missing
    /\ forall l', In l' missing <-> In l' labels /\ has_column l' df = false.
Proof.
  intros Hin Habsent.
  assert (Hl : In l (filter (fun l => negb (has_column l df)) labels)).
  { apply filter_In. split; [exact Hin | rewrite Habsent; reflexivity]. }
  exists (filter (fun l => negb (has_column l df)) labels). unfold drop.
  destruct (filter (fun l => negb (has_column l df)) labels) as [| m ms] eqn:E.
  - destruct Hl.
  - split; [reflexivity |]. split; [reflexivity |]. split; [exact Hl |].
    intros l'. rewrite <- E, filter_In, negb_true_iff. tauto.
Qed.

Lemma drop_raises_on_absent_labels_witness :
  (In "PID" ["Order"; "PID"] /\ has_column "PID" alley_only = false)
  /\ exists missing,
       drop ["Order"; "PID"] alley_only = Raise (KeyError missing)
       /\ missing = filter (fun l => negb (has_column l alley_only)) ["Order"; "PID"]
       /\ In "PID" missing
       /\ forall l', In l' missing
                     <-> In l' ["Order"; "PID"] /\ has_column l' alley_only = false.
Proof.
  split.
  - split; [simpl; auto | reflexivity].
  - apply (drop_raises_on_absent_labels ["Order"; "PID"] alley_only "PID").
    + simpl; auto.
    + reflexivity.
Defined.

End DropFacts.

(** ** The row filters (cell 5, second and third lines) *)

Section RowFilterFacts.

Lemma select_cons b mask (x : cell) s :
  select (b :: mask) (x :: s) = if b then x :: select mask s else select mask s.
Proof. unfold select. simpl. destruct b; reflexivity. Qed.

(** Filtering by the first test and then by the second, evaluated on the
    rows the first one kept, is filtering once by both tests. *)
Lemma select_twice (p q : cell -> bool) (a b s : series) :
  List.length a = List.length b ->
  select (map q (select (map p a) b)) (select (map p a) s)
  = select (map (fun row => p (fst row) && q (snd row)) (combine a b)) s.
Proof.
  revert b s. induction a as [| x a IH]; intros [| y b] s Hlen;
    simpl in Hlen; try discriminate.
  - reflexivity.
  - destruct s as [| z s].
    + unfold select. simpl. rewrite !combine_nil. reflexivity.
    + cbn [map combine fst snd]. rewrite !select_cons.
      destruct (p x); cbn [andb].
      * cbn [map]. rewrite select_cons. destruct (q y).
        -- f_equal. apply IH. lia.
        -- apply IH. lia.
      * apply IH. lia.
Qed.

Lemma select_length_le mask (s : series) :
  List.length (select mask s) <= List.length s.
Proof.
  unfold select. rewrite length_map.
  eapply Nat.le_trans; [apply filter_length_le |].
  rewrite length_combine. lia.
Qed.

Lemma loc_rows_shrinks n mask df :
  rectangular n df = true ->
  exists m, m <= n /\ rectangular m (loc_rows mask df) = true.
Proof.
  intros Hrect. destruct df as [| [name s] rest] eqn:Edf.
  - exists 0. split; [lia | reflexivity].
  - rewrite <- Edf in *.
    destruct (loc_rows_rectangular n mask df Hrect) as [m Hm].
    exists m. split; [| exact Hm].
    assert (Hin : In (name, s) df) by (rewrite Edf; left; reflexivity).
    pose proof (proj1 (rectangular_spec n df) Hrect _ Hin) as Hn.
    pose proof (proj1 (rectangular_spec m _) Hm (name, select mask s)) as Hlen.
    cbn [snd] in Hn, Hlen. rewrite <- Hlen, <- Hn.
    + apply select_length_le.
    + unfold loc_rows.
      apply (in_map (fun col => (fst col, select mask (snd col))) df (name, s)).
      exact Hin.
Qed.

(** The two filters of cell 5 cut every column by one mask. *)
Lemma drop_outliers_one_mask (n : nat) (df out : DataFrame) :
  rectangular n df = true ->
  drop_outliers df = Ok out ->
  exists nb area,
    getitem "Neighborhood" df = Ok nb
    /\ getitem "GrLivArea" df = Ok area
    /\ out = loc_rows (map passes_filters (combine nb area)) df.
Proof.
  intros Hrect Hd. unfold drop_outliers in Hd.
  apply result_bind_ok in Hd. destruct Hd as [nb [Hnb Hd]].
  apply result_bind_ok in Hd. destruct Hd as [area' [Harea Hd]].
  apply result_bind_ok in Hd. destruct Hd as [mask [Hmask Hd]].
  rewrite invert_isin in Harea, Hd. rewrite getitem_loc_rows in Harea.
  destruct (getitem "GrLivArea" df) as [area | e] eqn:Hga; [| discriminate].
  inversion Harea; subst area'. clear Harea.
  apply lt_scalar_spec in Hmask. destruct Hmask as [-> _].
  inversion Hd; subst out. clear Hd.
  pose proof (proj1 (rectangular_spec n df) Hrect _ (getitem_In _ _ _ Hnb)) as Hn1.
  pose proof (proj1 (rectangular_spec n df) Hrect _ (getitem_In _ _ _ Hga)) as Hn2.
  cbn [snd] in Hn1, Hn2.
  exists nb, area. split; [exact Hnb |].
  split; [first [reflexivity | exact Hga] |].
  fold below_bound. unfold loc_rows. rewrite map_map. apply map_ext.
  intros [name s]. cbn [fst snd]. f_equal.
  apply (select_twice keeps_neighborhood below_bound). lia.
Qed.

(** X4. On a frame whose columns all have n entries, the two filters of
    cell 5 keep exactly the rows that pass both tests (neighbourhood not
    excluded, living area a number below 4000): every column is cut by one
    and the same mask, so rows stay aligned and in order, and no row is
    added. *)
Theorem outlier_filters_keep_exactly_the_passing_rows
    (n : nat) (df out : DataFrame) :
  rectangular n df = true ->
  drop_outliers df = Ok out ->
  exists nb area,
    getitem "Neighborhood" df = Ok nb
    /\ getitem "GrLivArea" df = Ok area
    /\ out = loc_rows (map passes_filters (combine nb area)) df
    /\ exists m, m <= n /\ rectangular m out = true.
Proof.
  intros Hrect Hd.
  destruct (drop_outliers_one_mask n df out Hrect Hd)
    as [nb [area [Hnb [Harea Hout]]]].
  exists nb, area. split; [exact Hnb |]. split; [exact Harea |].
  split; [exact Hout |]. rewrite Hout. apply loc_rows_shrinks. exact Hrect.
Qed.

Lemma outlier_filters_keep_exactly_the_passing_rows_witness :
  (rectangular 5 raw_frame = true
   /\ drop_outliers raw_frame
      = Ok (loc_rows [true; false; false; false; true] raw_frame))
  /\ exists nb area,
       getitem "Neighborhood" raw_frame = Ok nb
       /\ getitem "GrLivArea" raw_frame = Ok area
       /\ loc_rows [true; false; false; false; true] raw_frame
          = loc_rows (map passes_filters (combine nb area)) raw_frame
       /\ exists m,
            m <= 5
            /\ rectangular m (loc_rows [true; false; false; false; true] raw_frame)
               = true.
Proof.
  split.
  - split; vm_compute; reflexivity.
  - apply (outlier_filters_keep_exactly_the_passing_rows 5 raw_frame
             (loc_rows [true; false; false; false; true] raw_frame));
      vm_compute; reflexivity.
Defined.

End RowFilterFacts.

(** ** The default fills (cells 7 to 9) *)

Section FillFacts.

Lemma lookup_In_iff {V} (d : list (string * V)) name v :
  NoDup (map fst d) -> (lookup name d = Some v <-> In (name, v) d).
Proof.
  intros Hnd. split; [apply lookup_In |].
  induction d as [| [k w] rest IH]; simpl; [tauto |].
  inversion Hnd as [| ? ? Hk Hrest]; subst.
  intros [Heq | Hin].
  - inversion Heq; subst. rewrite String.eqb_refl. reflexivity.
  - destruct (String.eqb k name) eqn:E; [| auto].
    apply String.eqb_eq in E. subst k. exfalso. apply Hk.
    apply (in_map fst) in Hin. exact Hin.
Qed.

Lemma lookup_not_In {V} (d : list (string * V)) name :
  lookup name d = None <-> ~ In name (map fst d).
Proof.
  induction d as [| [k w] rest IH]; simpl; [tauto |].
  destruct (String.eqb k name) eqn:E.
  - apply String.eqb_eq in E. split; [discriminate | tauto].
  - apply String.eqb_neq in E. rewrite IH. tauto.
Qed.

Lemma lookup_permutation {V} (d d' : list (string * V)) name :
  NoDup (map fst d) -> Permutation d d' -> lookup name d = lookup name d'.
Proof.
  intros Hnd Hp.
  assert (Hnd' : NoDup (map fst d')).
  { eapply Permutation_NoDup; [apply Permutation_map; exact Hp | exact Hnd]. }
  destruct (lookup name d) as [v |] eqn:E.
  - symmetry. apply lookup_In_iff; [exact Hnd' |].
    eapply Permutation_in; [exact Hp |]. apply lookup_In. exact E.
  - symmetry. apply lookup_not_In. apply lookup_not_In in E.
    intros Hin. apply E.
    eapply Permutation_in; [apply Permutation_sym, Permutation_map; exact Hp |].
    exact Hin.
Qed.

(** With distinct keys, the loop of cell 9 fills a column once, with the
    value the table holds for its label. *)
Lemma fill_with_lookup defaults (c : string * series) :
  NoDup (map fst defaults) ->
  fill_with defaults c
  = match lookup (fst c) defaults with
    | Some v => (fst c, fillna v (snd c))
    | None => c
    end.
Proof.
  unfold fill_with. revert c.
  induction defaults as [| [k v] rest IH]; intros c Hnd; simpl; [reflexivity |].
  inversion Hnd as [| ? ? Hk Hrest]; subst.
  unfold fill_column at 2. cbn [fst snd].
  rewrite (String.eqb_sym k (fst c)).
  destruct (String.eqb (fst c) k) eqn:E.
  - apply String.eqb_eq in E.
    apply (fill_with_other rest (fst c, fillna v (snd c))). simpl. congruence.
  - apply IH. exact Hrest.
Qed.

Lemma default_values_distinct : NoDup (map fst default_values).
Proof.
  assert (Hn : nodup string_dec (map fst default_values) = map fst default_values)
    by (vm_compute; reflexivity).
  rewrite <- Hn. apply NoDup_nodup.
Qed.

Lemma getitem_absent name (df : DataFrame) :
  has_column name df = false -> getitem name df = Raise (KeyError [name]).
Proof.
  induction df as [| [n s] rest IH]; simpl; [reflexivity |].
  destruct (String.eqb n name); simpl; [discriminate | exact IH].
Qed.

(** The column cell 9 leaves at each position. *)
Lemma filled_column (df filled : DataFrame) j name col :
  fill_defaults default_values df = Ok filled ->
  nth_error df j = Some (name, col) ->
  nth_error filled j = Some (name, map (filled_entry name) col).
Proof.
  intros Hfill Hj. apply fill_defaults_inv in Hfill. destruct Hfill as [_ ->].
  rewrite nth_error_map, Hj. cbn [option_map].
  rewrite (fill_with_lookup default_values (name, col) default_values_distinct).
  cbn [fst snd]. unfold filled_entry, fillna.
  destruct (lookup name default_values) as [v |]; [reflexivity |].
  f_equal. f_equal. rewrite <- (map_id col) at 1. apply map_ext. intros c.
  destruct (isna c); reflexivity.
Qed.

(** X5. When cell 9 runs to its end, each column keeps its label, position
    and length; an entry that is not missing is unchanged; a missing entry of
    a column named in the default table becomes that column's default; and a
    column the table does not name is unchanged. *)
Theorem fills_touch_only_missing_entries
    (df filled : DataFrame) (j : nat) (name : string) (col : series) :
  fill_defaults default_values df = Ok filled ->
  nth_error df j = Some (name, col) ->
  exists col',
    nth_error filled j = Some (name, col')
    /\ col' = map (filled_entry name) col
    /\ (forall i c, nth_error col i = Some c -> c <> NaN ->
          nth_error col' i = Some c)
    /\ (forall i v, nth_error col i = Some NaN ->
          lookup name default_values = Some v -> nth_error col' i = Some v)
    /\ (lookup name default_values = None -> col' = col).
Proof.
  intros Hfill Hj. exists (map (filled_entry name) col).
  split; [apply (filled_column df filled j name col Hfill Hj) |].
  split; [reflexivity |]. split; [| split].
  - intros i c Hi Hc. rewrite nth_error_map, Hi. cbn [option_map].
    unfold filled_entry. destruct c; try reflexivity. congruence.
  - intros i v Hi Hv. rewrite nth_error_map, Hi. cbn [option_map].
    unfold filled_entry. cbn [isna]. rewrite Hv. reflexivity.
  - intros Hnone. rewrite <- (map_id col) at 2. apply map_ext. intros c.
    unfold filled_entry. rewrite Hnone. destruct (isna c); reflexivity.
Qed.

Lemma fills_touch_only_missing_entries_witness :
  (fill_defaults default_values raw_frame
   = Ok (map (fill_with default_values) raw_frame)
   /\ nth_error raw_frame 7 = Some ("Alley", [NaN; Str "None"; NaN; NaN; NaN]))
  /\ exists col',
       nth_error (map (fill_with default_values) raw_frame) 7 = Some ("Alley", col')
       /\ col' = map (filled_entry "Alley") [NaN; Str "None"; NaN; NaN; NaN].
Proof.
  split.
  - split; vm_compute; reflexivity.
  - destruct (fills_touch_only_missing_entries raw_frame
                (map (fill_with default_values) raw_frame) 7 "Alley"
                [NaN; Str "None"; NaN; NaN; NaN])
      as [col' [Hnth [Hcol _]]].
    + vm_compute. reflexivity.
    + vm_compute. reflexivity.
    + exists col'. split; assumption.
Defined.

(** X6. The fills do not depend on the order in which the default table is
    walked: for a table with distinct keys, walking any rearrangement of it
    over a frame that the loop accepts gives the same frame. *)
Theorem fill_order_is_irrelevant
    (defaults defaults' : list (string * cell)) (df out : DataFrame) :
  NoDup (map fst defaults) ->
  Permutation defaults defaults' ->
  fill_defaults defaults df = Ok out ->
  fill_defaults defaults' df = Ok out.
Proof.
  intros Hnd Hp Hfill. apply fill_defaults_inv in Hfill.
  destruct Hfill as [Hcols ->].
  rewrite fill_defaults_map.
  - f_equal. apply map_ext. intros c.
    rewrite (fill_with_lookup defaults c Hnd).
    rewrite (fill_with_lookup defaults' c).
    + rewrite (lookup_permutation defaults defaults' (fst c) Hnd Hp). reflexivity.
    + eapply Permutation_NoDup; [apply Permutation_map; exact Hp | exact Hnd].
  - intros kv Hkv. apply Hcols.
    eapply Permutation_in; [apply Permutation_sym; exact Hp | exact Hkv].
Qed.

Lemma fill_order_is_irrelevant_witness :
  (NoDup (map fst default_values)
   /\ Permutation default_values (rev default_values)
   /\ fill_defaults default_values raw_frame
      = Ok (map (fill_with default_values) raw_frame))
  /\ fill_defaults (rev default_values) raw_frame
     = Ok (map (fill_with default_values) raw_frame).
Proof.
  assert (Hfill : fill_defaults default_values raw_frame
                  = Ok (map (fill_with default_values) raw_frame))
    by (vm_compute; reflexivity).
  split.
  - split; [exact default_values_distinct |].
    split; [apply Permutation_rev | exact Hfill].
  - apply (fill_order_is_irrelevant default_values (rev default_values) raw_frame
             (map (fill_with default_values) raw_frame)
             default_values_distinct (Permutation_rev default_values) Hfill).
Defined.

(** X7. When a column of the table is not in the frame, the loop of cell 9
    stops at the first such column, in table order, with the KeyError of
    that label, and returns no frame. *)
Theorem fill_defaults_raises_on_first_absent_column
    (before after : list (string * cell)) (column : string) (value : cell)
    (df : DataFrame) :
  (forall kv, In kv before -> has_column (fst kv) df = true) ->
  has_column column df = false ->
  fill_defaults (before ++ (column, value) :: after) df
  = Raise (KeyError [column]).
Proof.
  revert df. induction before as [| [c v] rest IH]; intros df Hbefore Habsent.
  - simpl. unfold replace_na. rewrite getitem_absent by exact Habsent. reflexivity.
  - simpl. rewrite replace_na_ok by (apply (Hbefore (c, v)); left; reflexivity).
    cbn [Py.bind]. apply IH.
    + intros kv Hkv. rewrite has_column_map by apply fill_column_name.
      apply Hbefore. right. exact Hkv.
    + rewrite has_column_map by apply fill_column_name. exact Habsent.
Qed.

Lemma fill_defaults_raises_on_first_absent_column_witness :
  ((forall kv, In kv (firstn 1 default_values) ->
      has_column (fst kv) alley_only = true)
   /\ has_column "BedroomAbvGr" alley_only = false)
  /\ fill_defaults default_values alley_only = Raise (KeyError ["BedroomAbvGr"]).
Proof.
  assert (Hbefore : forall kv, In kv (firstn 1 default_values) ->
                               has_column (fst kv) alley_only = true).
  { intros kv [<- | []]. reflexivity. }
  split.
  - split; [exact Hbefore | reflexivity].
  - apply (fill_defaults_raises_on_first_absent_column
             (firstn 1 default_values) (skipn 2 default_values)
             "BedroomAbvGr" (Num 0) alley_only Hbefore).
    reflexivity.
Defined.

End FillFacts.

(** ** The cleaner as a whole (cells 5 to 10) and the target (cell 12) *)

Section WholeCleanerFacts.

(** X8. After the whole cleaner, no column named in the default table holds
    a missing value: the recoding of cell 10 writes no missing value and
    therefore keeps what the fills of cell 9 established. *)
Theorem cleaned_defaults_have_no_missing (df out : DataFrame) :
  clean df = Ok out ->
  forall column s,
    In column (map fst default_values) -> In (column, s) out -> ~ In NaN s.
Proof.
  unfold clean. intros Hc column s Hcolumn Hin.
  apply result_bind_ok in Hc. destruct Hc as [df1 [_ Hc]].
  apply clean_rows_and_values_inv in Hc.
  destruct Hc as [nb [area [_ [_ [_ [_ ->]]]]]].
  unfold replace in Hin. rewrite map_map in Hin. apply in_map_iff in Hin.
  destruct Hin as [c [Hc _]].
  assert (Hname : fst c = column).
  { rewrite <- (fill_with_name default_values c).
    rewrite <- (replace_column_name recoding (fill_with default_values c)).
    rewrite Hc. reflexivity. }
  replace s with (snd (replace_column recoding (fill_with default_values c)))
    by (rewrite Hc; reflexivity).
  apply replace_column_not_missing. apply fill_with_no_missing.
  - apply default_values_not_missing.
  - rewrite Hname. exact Hcolumn.
Qed.

Lemma cleaned_defaults_have_no_missing_witness :
  clean raw_frame = Ok cleaned_frame
  /\ forall column s,
       In column (map fst default_values) -> In (column, s) cleaned_frame ->
       ~ In NaN s.
Proof.
  split.
  - vm_compute. reflexivity.
  - apply (cleaned_defaults_have_no_missing raw_frame cleaned_frame).
    vm_compute. reflexivity.
Defined.

(** X9. Cells 9 and 10 composed: in the frame they leave, every entry is the
    recoding of the filled entry.  In particular a missing entry of a
    defaulted column reads the column's default pushed through the column's
    recoding: 0 for Alley (from "None"), but the string "Ta" for HeatingQC,
    whose recoding has the key "TA" and not "Ta". *)
Theorem missing_entries_end_as_recoded_defaults
    (df filled : DataFrame) (j : nat) (name : string) (col : series) :
  fill_defaults default_values df = Ok filled ->
  nth_error df j = Some (name, col) ->
  nth_error (replace recoding filled) j
  = Some (name, map (fun c => recoded_entry name (filled_entry name c)) col)
  /\ recoded_entry "Alley" (filled_entry "Alley" NaN) = Num 0
  /\ recoded_entry "HeatingQC" (filled_entry "HeatingQC" NaN) = Str "Ta"
  /\ recoded_entry "HeatingQC" (filled_entry "HeatingQC" (Str "TA")) = Num 3.
Proof.
  intros Hfill Hj.
  pose proof (filled_column df filled j name col Hfill Hj) as Hnth.
  split; [| repeat split; vm_compute; reflexivity].
  unfold replace. rewrite nth_error_map, Hnth. cbn [option_map].
  unfold replace_column, recoded_entry. cbn [fst snd].
  destruct (lookup name recoding) as [pairs |].
  - unfold replace_list. rewrite map_map. reflexivity.
  - reflexivity.
Qed.

Lemma missing_entries_end_as_recoded_defaults_witness :
  (fill_defaults default_values raw_frame
   = Ok (map (fill_with default_values) raw_frame)
   /\ nth_error raw_frame 7 = Some ("Alley", [NaN; Str "None"; NaN; NaN; NaN]))
  /\ nth_error (replace recoding (map (fill_with default_values) raw_frame)) 7
     = Some ("Alley",
             map (fun c => recoded_entry "Alley" (filled_entry "Alley" c))
                 [NaN; Str "None"; NaN; NaN; NaN]).
Proof.
  split.
  - split; vm_compute; reflexivity.
  - apply (missing_entries_end_as_recoded_defaults raw_frame
             (map (fill_with default_values) raw_frame) 7 "Alley"
             [NaN; Str "None"; NaN; NaN; NaN]);
      vm_compute; reflexivity.
Defined.

Lemma map_fst_filter_labels (keep : string -> bool) (df : DataFrame) :
  map fst (filter (fun col => keep (fst col)) df) = filter keep (map fst df).
Proof.
  induction df as [| [n s] rest IH]; simpl; [reflexivity |].
  destruct (keep n); simpl; rewrite IH; reflexivity.
Qed.

Lemma map_fst_preserved (F : string * series -> string * series) (df : DataFrame) :
  (forall col, fst (F col) = fst col) -> map fst (map F df) = map fst df.
Proof.
  intros HF. rewrite map_map. apply map_ext. exact HF.
Qed.

(** The cleaner leaves the columns of equal length, with no more rows. *)
Lemma clean_shape (n : nat) (df out : DataFrame) :
  rectangular n df = true -> clean df = Ok out ->
  exists m, m <= n /\ rectangular m out = true.
Proof.
  intros Hrect Hc. unfold clean in Hc.
  apply result_bind_ok in Hc. destruct Hc as [df1 [Hdrop Hc]].
  pose proof (drop_rectangular _ _ _ _ Hrect Hdrop) as Hrect1.
  unfold clean_rows_and_values in Hc.
  apply result_bind_ok in Hc. destruct Hc as [df3 [Hrows Hc]].
  apply result_bind_ok in Hc. destruct Hc as [df4 [Hfill Hc]].
  inversion Hc; subst out. clear Hc.
  apply fill_defaults_inv in Hfill. destruct Hfill as [_ ->].
  destruct (drop_outliers_one_mask n df1 df3 Hrect1 Hrows)
    as [nb [area [_ [_ ->]]]].
  destruct (loc_rows_shrinks n (map passes_filters (combine nb area)) df1 Hrect1)
    as [m [Hm Hrect3]].
  exists m. split; [exact Hm |]. unfold replace.
  apply map_rectangular; [apply replace_column_length |].
  apply map_rectangular; [apply fill_with_length | exact Hrect3].
Qed.

(** X10. The cleaner never adds, renames or reorders a column: the labels of
    the cleaned frame are the labels of the input without "Order" and "PID",
    in the same order; and from a frame whose columns all have n entries it
    leaves a frame whose columns all have the same number of entries, at
    most n. *)
Theorem clean_keeps_the_other_columns (n : nat) (df out : DataFrame) :
  rectangular n df = true ->
  clean df = Ok out ->
  map fst out
  = filter (fun label => negb (existsb (String.eqb label) ["Order"; "PID"]))
           (map fst df)
  /\ exists m, m <= n /\ rectangular m out = true.
Proof.
  intros Hrect Hc. split; [| apply (clean_shape n df out Hrect Hc)].
  unfold clean in Hc.
  apply result_bind_ok in Hc. destruct Hc as [df1 [Hdrop Hc]].
  pose proof (drop_rectangular _ _ _ _ Hrect Hdrop) as Hrect1.
  unfold clean_rows_and_values in Hc.
  apply result_bind_ok in Hc. destruct Hc as [df3 [Hrows Hc]].
  apply result_bind_ok in Hc. destruct Hc as [df4 [Hfill Hc]].
  inversion Hc; subst out. clear Hc.
  apply fill_defaults_inv in Hfill. destruct Hfill as [_ ->].
  destruct (drop_outliers_one_mask n df1 df3 Hrect1 Hrows)
    as [nb [area [_ [_ Hdf3]]]].
  unfold replace. rewrite map_fst_preserved by apply replace_column_name.
  rewrite map_fst_preserved by apply fill_with_name.
  rewrite Hdf3. unfold loc_rows. rewrite map_fst_preserved by reflexivity.
  unfold drop_identifiers, drop in Hdrop.
  destruct (filter (fun l => negb (has_column l df)) ["Order"; "PID"]);
    [| discriminate].
  inversion Hdrop.
  apply (map_fst_filter_labels
           (fun label => negb (existsb (String.eqb label) ["Order"; "PID"]))).
Qed.

Lemma clean_keeps_the_other_columns_witness :
  (rectangular 5 raw_frame = true /\ clean raw_frame = Ok cleaned_frame)
  /\ map fst cleaned_frame
     = filter (fun label => negb (existsb (String.eqb label) ["Order"; "PID"]))
              (map fst raw_frame)
  /\ exists m, m <= 5 /\ rectangular m cleaned_frame = true.
Proof.
  split.
  - split; vm_compute; reflexivity.
  - apply (clean_keeps_the_other_columns 5 raw_frame cleaned_frame);
      vm_compute; reflexivity.
Defined.

(** X11. [pop] hands out the column of the label and leaves the frame
    without it and otherwise as it was; on a frame whose columns all have n
    entries the target has n entries too, one per remaining row; popping the
    same label again raises KeyError, as does popping a label that is not a
    column. *)
Theorem pop_splits_off_the_target (n : nat) (name : string) (df : DataFrame) :
  rectangular n df = true ->
  (has_column name df = false -> pop name df = Raise (KeyError [name]))
  /\ (has_column name df = true ->
      exists y rest,
        pop name df = Ok (y, rest)
        /\ getitem name df = Ok y
        /\ List.length y = n
        /\ rectangular n rest = true
        /\ (forall label s, In (label, s) rest <-> In (label, s) df /\ label <> name)
        /\ pop name rest = Raise (KeyError [name])).
Proof.
  intros Hrect. unfold pop. split.
  - intros Habsent. rewrite getitem_absent by exact Habsent. reflexivity.
  - intros Hcol. destruct (has_column_getitem _ _ Hcol) as [y Hy].
    rewrite Hy. cbn [Py.bind].
    exists y, (filter (fun col => negb (String.eqb (fst col) name)) df).
    split; [reflexivity |]. split; [reflexivity |]. split; [| split; [| split]].
    + apply (proj1 (rectangular_spec n df) Hrect _ (getitem_In _ _ _ Hy)).
    + apply rectangular_spec. intros col Hin. apply filter_In in Hin.
      apply (proj1 (rectangular_spec n df) Hrect). tauto.
    + intros label s. rewrite filter_In. cbn [fst].
      rewrite negb_true_iff, String.eqb_neq. tauto.
    + rewrite getitem_absent; [reflexivity |].
      apply not_true_is_false. intros Hc. apply has_column_In in Hc.
      destruct Hc as [s Hin]. apply filter_In in Hin. destruct Hin as [_ Hne].
      cbn [fst] in Hne. rewrite String.eqb_refl in Hne. discriminate.
Qed.

Lemma pop_splits_off_the_target_witness :
  rectangular 2 cleaned_frame = true
  /\ (has_column "SalePrice" cleaned_frame = true ->
      exists y rest,
        pop "SalePrice" cleaned_frame = Ok (y, rest)
        /\ getitem "SalePrice" cleaned_frame = Ok y
        /\ List.length y = 2
        /\ rectangular 2 rest = true
        /\ (forall label s,
              In (label, s) rest
              <-> In (label, s) cleaned_frame /\ label <> "SalePrice")
        /\ pop "SalePrice" rest = Raise (KeyError ["SalePrice"])).
Proof.
  split.
  - vm_compute. reflexivity.
  - apply (pop_splits_off_the_target 2 "SalePrice" cleaned_frame).
    vm_compute. reflexivity.
Defined.

End WholeCleanerFacts.

Section PrepareFacts.

Lemma identifiers_are_gone_after_clean (df out : DataFrame) :
  clean df = Ok out ->
  has_column "Order" out = false /\ has_column "PID" out = false.
Proof.
  unfold clean. intros Hc. apply result_bind_ok in Hc.
  destruct Hc as [df1 [Hdrop Hc]].
  rewrite !(has_column_cleaned _ _ _ Hc).
  split; eapply dropped_columns_absent; try exact Hdrop; simpl; auto.
Qed.

(** X12. Cells 4 to 12 together: from a raw frame whose columns all have n
    entries, a successful run returns a target and a feature frame with the
    same number of rows, at most n, one target entry per feature row; the
    feature frame has no "SalePrice", "Order" or "PID" column left. *)
Theorem prepare_aligns_target_and_features
    (n : nat) (raw features : DataFrame) (y : series) :
  rectangular n raw = true ->
  prepare raw = Ok (y, features) ->
  exists m,
    m <= n
    /\ List.length y = m
    /\ rectangular m features = true
    /\ has_column "SalePrice" features = false
    /\ has_column "Order" features = false
    /\ has_column "PID" features = false.
Proof.
  intros Hrect Hp. unfold prepare in Hp.
  apply result_bind_ok in Hp. destruct Hp as [cleaned [Hclean Hpop]].
  assert (Hrect0 : rectangular n (normalize_columns raw) = true).
  { unfold normalize_columns. apply map_rectangular; [reflexivity | exact Hrect]. }
  destruct (clean_shape n _ _ Hrect0 Hclean) as [m [Hm Hrectm]].
  destruct (identifiers_are_gone_after_clean _ _ Hclean) as [Horder Hpid].
  unfold pop in Hpop. apply result_bind_ok in Hpop.
  destruct Hpop as [y' [Hy Hpop]]. inversion Hpop; subst y' features. clear Hpop.
  assert (Hkept : forall label,
            has_column label
              (filter (fun col => negb (String.eqb (fst col) "SalePrice")) cleaned)
            = true -> has_column label cleaned = true /\ label <> "SalePrice").
  { intros label Hc. apply has_column_In in Hc. destruct Hc as [s Hs].
    apply filter_In in Hs. destruct Hs as [Hs Hne]. cbn [fst] in Hne.
    apply negb_true_iff, String.eqb_neq in Hne. split; [| exact Hne].
    apply has_column_In. eauto. }
  exists m. split; [exact Hm |]. split; [| split; [| split; [| split]]].
  - apply (proj1 (rectangular_spec m cleaned) Hrectm _ (getitem_In _ _ _ Hy)).
  - apply rectangular_spec. intros col Hin. apply filter_In in Hin.
    apply (proj1 (rectangular_spec m cleaned) Hrectm). tauto.
  - apply not_true_is_false. intros Hc. apply Hkept in Hc. tauto.
  - apply not_true_is_false. intros Hc. apply Hkept in Hc.
    destruct Hc as [Hc _]. congruence.
  - apply not_true_is_false. intros Hc. apply Hkept in Hc.
    destruct Hc as [Hc _]. congruence.
Qed.

Lemma prepare_aligns_target_and_features_witness :
  (rectangular 5 raw_frame = true
   /\ prepare raw_frame = Ok (fst prepared_sample, snd prepared_sample))
  /\ exists m,
       m <= 5
       /\ List.length (fst prepared_sample) = m
       /\ rectangular m (snd prepared_sample) = true
       /\ has_column "SalePrice" (snd prepared_sample) = false
       /\ has_column "Order" (snd prepared_sample) = false
       /\ has_column "PID" (snd prepared_sample) = false.
Proof.
  split.
  - split; vm_compute; reflexivity.
  - apply (prepare_aligns_target_and_features 5 raw_frame
             (snd prepared_sample) (fst prepared_sample));
      vm_compute; reflexivity.
Defined.

End PrepareFacts.

(** ** The numerical pipeline, beyond its range on the training data *)

Section ImputerFacts.

Local Open Scope Q_scope.

Lemma insert_sorted_perm (x : Q) (l : list Q) :
  Permutation (insert_sorted x l) (x :: l).
Proof.
  induction l as [| y rest IH]; simpl.
  - apply Permutation_refl.
  - destruct (Qltb x y).
    + apply Permutation_refl.
    + eapply Permutation_trans; [apply perm_skip; exact IH | apply perm_swap].
Qed.

Lemma sort_values_perm (l : list Q) : Permutation (sort_values l) l.
Proof.
  induction l as [| x rest IH]; simpl.
  - apply Permutation_refl.
  - eapply Permutation_trans; [apply insert_sorted_perm |].
    apply perm_skip. exact IH.
Qed.

Lemma sorted_entry_In (l : list Q) i x :
  nth_error (sort_values l) i = Some x -> In x l.
Proof.
  intros Hi. eapply Permutation_in; [apply sort_values_perm |].
  eapply nth_error_In. exact Hi.
Qed.

Lemma median_total (l : list Q) : l <> [] -> exists m, median l = Some m.
Proof.
  intros Hne. unfold median.
  assert (Hlen : (0 < List.length (sort_values l))%nat).
  { rewrite (Permutation_length (sort_values_perm l)).
    destruct l; [congruence | simpl; lia]. }
  set (s := sort_values l) in *. set (n := List.length s) in *.
  destruct (Nat.odd n) eqn:Hodd.
  - destruct (nth_error s (n / 2)) as [m |] eqn:E; [eauto |].
    apply nth_error_None in E. fold n in E.
    pose proof (Nat.div_lt n 2 Hlen). lia.
  - assert (Heven : Nat.even n = true).
    { rewrite <- Nat.negb_odd, Hodd. reflexivity. }
    apply Nat.even_spec in Heven. destruct Heven as [k Hk].
    assert (Hhalf : (n / 2 = k)%nat).
    { rewrite Hk, Nat.mul_comm. apply Nat.div_mul. discriminate. }
    rewrite Hhalf.
    destruct (nth_error s (k - 1)) as [a |] eqn:Ea.
    + destruct (nth_error s k) as [b |] eqn:Eb; [eauto |].
      apply nth_error_None in Eb. fold n in Eb. lia.
    + apply nth_error_None in Ea. fold n in Ea. lia.
Qed.

Lemma median_in_range (l : list Q) m :
  median l = Some m -> data_min l <= m <= data_max l.
Proof.
  unfold median. destruct (Nat.odd (List.length (sort_values l))).
  - intros Hm. apply sorted_entry_In in Hm.
    split; [apply data_min_le | apply data_max_ge]; exact Hm.
  - destruct (nth_error (sort_values l) (List.length (sort_values l) / 2 - 1))
      as [a |] eqn:Ea; [| discriminate].
    destruct (nth_error (sort_values l) (List.length (sort_values l) / 2))
      as [b |] eqn:Eb; [| discriminate].
    intros Hm. inversion Hm. clear Hm.
    apply sorted_entry_In in Ea, Eb.
    pose proof (data_min_le l a Ea). pose proof (data_min_le l b Eb).
    pose proof (data_max_ge l a Ea). pose proof (data_max_ge l b Eb).
    cbn [num_div num_add num_one rational].
    assert (Hmean : (a + b) / (1 + 1) == (a + b) * (1 # 2)) by (field).
    rewrite Hmean. split; lra.
Qed.

Lemma insert_sorted_head (a x : Q) (l : list Q) :
  HdRel Qle a l -> a <= x -> HdRel Qle a (insert_sorted x l).
Proof.
  intros Hhd Hax. destruct l as [| y rest]; simpl.
  - constructor. exact Hax.
  - destruct (Qltb x y); constructor; [exact Hax |].
    inversion Hhd. assumption.
Qed.

Lemma insert_sorted_sorted (x : Q) (l : list Q) :
  Sorted Qle l -> Sorted Qle (insert_sorted x l).
Proof.
  induction l as [| y rest IH]; simpl; intros Hs.
  - constructor; constructor.
  - inversion Hs as [| ? ? Hrest Hhd]; subst.
    destruct (Qltb x y) eqn:E.
    + constructor; [exact Hs |]. constructor.
      apply Qlt_le_weak. apply Qltb_lt. exact E.
    + constructor; [apply IH; exact Hrest |].
      apply insert_sorted_head; [exact Hhd | apply Qltb_false; exact E].
Qed.

Lemma sort_values_sorted (l : list Q) : Sorted Qle (sort_values l).
Proof.
  induction l as [| x rest IH]; simpl.
  - constructor.
  - apply insert_sorted_sorted. exact IH.
Qed.

(** The median is read off the ascending arrangement of the values. *)
Lemma median_is_middle (l : list Q) m :
  median l = Some m ->
  exists s, Permutation s l /\ Sorted Qle s
    /\ (Nat.odd (List.length s) = true ->
        nth_error s (List.length s / 2) = Some m)
    /\ (Nat.odd (List.length s) = false ->
        exists a b, nth_error s (List.length s / 2 - 1) = Some a
                    /\ nth_error s (List.length s / 2) = Some b
                    /\ m = (a + b) / (1 + 1)).
Proof.
  unfold median. intros Hm. exists (sort_values l).
  split; [apply sort_values_perm |]. split; [apply sort_values_sorted |].
  destruct (Nat.odd (List.length (sort_values l))).
  - split; [intros _; exact Hm | discriminate].
  - split; [discriminate | intros _].
    destruct (nth_error (sort_values l) (List.length (sort_values l) / 2 - 1))
      as [a |]; [| discriminate].
    destruct (nth_error (sort_values l) (List.length (sort_values l) / 2))
      as [b |]; [| discriminate].
    exists a, b. inversion Hm. repeat split; reflexivity.
Qed.

Lemma has_observation_spec (col : list (option Q)) :
  has_observation col = true <-> observed col <> [].
Proof.
  unfold has_observation, observed.
  induction col as [| [x |] rest IH]; simpl.
  - split; [discriminate | congruence].
  - split; [discriminate | reflexivity].
  - exact IH.
Qed.

Lemma observed_In (col : list (option Q)) x :
  In x (observed col) <-> In (Some x) col.
Proof.
  unfold observed. rewrite in_flat_map. split.
  - intros [[y |] [Hin Hx]]; simpl in Hx; [| tauto].
    destruct Hx as [<- | []]. exact Hin.
  - intros Hin. exists (Some x). split; [exact Hin | left; reflexivity].
Qed.

(** X13. Median imputation of one column. A column with no observed entry
    is dropped. Otherwise the column keeps its length, every observed entry
    is unchanged, every missing entry reads the median of the observed ones,
    and that median, hence every entry of the imputed column, lies between
    the smallest and the largest observed entry.  The median is the middle
    entry of the observed values put in ascending order when their number is
    odd, and half the sum of the two middle entries when it is even. *)
Theorem imputation_stays_within_the_observed_range (col : list (option Q)) :
  (has_observation col = false ->
   imputer_transform (imputer_fit [col]) [col] = [])
  /\ (has_observation col = true ->
      exists m,
        median (observed col) = Some m
        /\ imputer_transform (imputer_fit [col]) [col] = [fill_missing m col]
        /\ List.length (fill_missing m col) = List.length col
        /\ data_min (observed col) <= m <= data_max (observed col)
        /\ (forall i x, nth_error col i = Some (Some x) ->
              nth_error (fill_missing m col) i = Some x)
        /\ (forall i, nth_error col i = Some None ->
              nth_error (fill_missing m col) i = Some m)
        /\ (forall v, In v (fill_missing m col) ->
              data_min (observed col) <= v <= data_max (observed col))
        /\ (exists s,
              Permutation s (observed col) /\ Sorted Qle s
              /\ (Nat.odd (List.length s) = true ->
                  nth_error s (List.length s / 2) = Some m)
              /\ (Nat.odd (List.length s) = false ->
                  exists a b,
                    nth_error s (List.length s / 2 - 1) = Some a
                    /\ nth_error s (List.length s / 2) = Some b
                    /\ m = (a + b) / (1 + 1)))).
Proof.
  unfold imputer_transform, imputer_fit. cbn [map combine flat_map fst snd].
  split.
  - intros Hnone.
    assert (Hobs : observed col = []).
    { destruct (observed col) eqn:E; [reflexivity |].
      assert (Ht : has_observation col = true)
        by (apply has_observation_spec; rewrite E; discriminate).
      congruence. }
    rewrite Hobs. reflexivity.
  - intros Hsome. apply has_observation_spec in Hsome.
    destruct (median_total (observed col) Hsome) as [m Hm].
    pose proof (median_in_range _ _ Hm) as Hrange.
    exists m. rewrite Hm. split; [reflexivity |]. split; [reflexivity |].
    split; [apply length_map |]. split; [exact Hrange |].
    split; [| split; [| split]].
    + intros i x Hi. unfold fill_missing. rewrite nth_error_map, Hi. reflexivity.
    + intros i Hi. unfold fill_missing. rewrite nth_error_map, Hi. reflexivity.
    + intros v Hv. unfold fill_missing in Hv. apply in_map_iff in Hv.
      destruct Hv as [[x |] [<- Hin]]; [| exact Hrange].
      apply observed_In in Hin.
      split; [apply data_min_le | apply data_max_ge]; exact Hin.
    + apply median_is_middle. exact Hm.
Qed.

(** The sample: the missing frontage reads the mean of the two observed. *)
Example median_sample :
  imputer_transform (imputer_fit [[Some 141; None; Some 81]])
                    [[Some 141; None; Some 81]]
  = [[141; (81 + 141) / (1 + 1); 81]].
Proof. reflexivity. Qed.

End ImputerFacts.

Section ScalerBeyondTraining.

Local Open Scope Q_scope.

(** The divisor of the scaler is positive for every training column. *)
Lemma scale_divisor_positive (train : list Q) :
  0 < handle_zeros_in_scale (num_sub (data_max train) (data_min train)).
Proof.
  unfold handle_zeros_in_scale. cbn [num_lt num_sub num_one num_ten_eps rational].
  destruct (Qltb (data_max train - data_min train) (10 # 4503599627370496)) eqn:E.
  - reflexivity.
  - apply Qltb_false in E.
    assert (Hpos : 0 < (10 # 4503599627370496)) by reflexivity. lra.
Qed.

(** The scaler in closed form, for any entry, seen in training or not. *)
Lemma scaled_any_value (train : list Q) x :
  num_add (num_mul x (scale_ (scaler_fit_column train)))
          (min_ (scaler_fit_column train))
  == (x - data_min train)
     / handle_zeros_in_scale (num_sub (data_max train) (data_min train)).
Proof.
  pose proof (scale_divisor_positive train) as Hh.
  unfold scaler_fit_column. cbn [scale_ min_].
  set (h := handle_zeros_in_scale (num_sub (data_max train) (data_min train))) in *.
  cbn [num_add num_mul num_sub num_div num_zero num_one rational].
  field. intros Hz. rewrite Hz in Hh. apply (Qlt_irrefl 0). exact Hh.
Qed.

Lemma Qdiv_le_mono (a b h : Q) : 0 < h -> a <= b -> a / h <= b / h.
Proof.
  intros Hh Hab. unfold Qdiv. apply Qmult_le_compat_r; [exact Hab |].
  apply Qlt_le_weak. apply Qinv_lt_0_compat. exact Hh.
Qed.

Lemma fold_max_In (l : list Q) (acc : Q) :
  fold_left num_max l acc = acc \/ In (fold_left num_max l acc) l.
Proof.
  revert acc. induction l as [| x rest IH]; intros acc; simpl.
  - left. reflexivity.
  - destruct (IH (num_max acc x)) as [Heq | Hin].
    + rewrite Heq. unfold num_max. destruct (num_lt acc x); auto.
    + right. right. exact Hin.
Qed.

Lemma data_max_In (col : list Q) : col <> [] -> In (data_max col) col.
Proof.
  destruct col as [| x0 rest]; [congruence |]. intros _. simpl.
  destruct (fold_max_In rest x0) as [-> | Hin]; auto.
Qed.

(** X14. The fitted scaler applied to entries it was not fitted on: it
    preserves order, and it does not clip: an entry below the training
    minimum is sent below 0, and when the training spread is at least
    10 * eps an entry above the training maximum is sent above 1. *)
Theorem scaler_preserves_order_and_does_not_clip (train : list Q) (x y : Q) :
  exists vx vy,
    scaler_transform_column (scaler_fit_column train) [x; y] = [vx; vy]
    /\ (x <= y -> vx <= vy)
    /\ (x < data_min train -> vx < 0)
    /\ ((10 # 4503599627370496) <= data_max train - data_min train ->
        data_max train < x -> 1 < vx).
Proof.
  eexists. eexists. split; [reflexivity |].
  pose proof (scale_divisor_positive train) as Hh.
  rewrite !scaled_any_value. split; [| split].
  - intros Hxy. apply Qdiv_le_mono; [exact Hh | lra].
  - intros Hx. apply Qlt_shift_div_r; [exact Hh | lra].
  - intros Hspread Hx. apply Qlt_shift_div_l; [exact Hh |].
    unfold handle_zeros_in_scale.
    cbn [num_lt num_sub num_one num_ten_eps rational].
    destruct (Qltb (data_max train - data_min train) (10 # 4503599627370496))
      eqn:E.
    + apply Qltb_lt in E. lra.
    + lra.
Qed.

(** X15. The scaler on its own training column, when that column is not
    empty: the output has one entry per input entry; the minimum is sent to
    0; the maximum is sent to 1 when the spread is at least 10 * eps; and
    when the spread is below 10 * eps every entry x is sent to x - min, so a
    constant column becomes all zeros. *)
Theorem scaler_endpoints (train : list Q) :
  train <> [] ->
  List.length (scaler_transform_column (scaler_fit_column train) train)
  = List.length train
  /\ (exists v, In v (scaler_transform_column (scaler_fit_column train) train)
                /\ v == 0)
  /\ ((10 # 4503599627370496) <= data_max train - data_min train ->
      exists v, In v (scaler_transform_column (scaler_fit_column train) train)
                /\ v == 1)
  /\ (data_max train - data_min train < (10 # 4503599627370496) ->
      forall i x, nth_error train i = Some x ->
        exists v,
          nth_error (scaler_transform_column (scaler_fit_column train) train) i
          = Some v
          /\ v == x - data_min train)
  /\ ((forall x, In x train -> x == data_min train) ->
      forall v, In v (scaler_transform_column (scaler_fit_column train) train) ->
        v == 0).
Proof.
  intros Hne. split; [apply length_map |].
  split; [apply scaled_minimum_is_zero; exact Hne |].
  pose proof (scale_divisor_positive train) as Hh.
  split; [| split].
  - intros Hspread.
    exists (num_add (num_mul (data_max train) (scale_ (scaler_fit_column train)))
                    (min_ (scaler_fit_column train))).
    split.
    + apply (in_map (fun x => num_add (num_mul x (scale_ (scaler_fit_column train)))
                                      (min_ (scaler_fit_column train)))).
      apply data_max_In. exact Hne.
    + rewrite scaled_any_value. unfold handle_zeros_in_scale in *.
      cbn [num_lt num_sub num_one num_ten_eps rational] in *.
      destruct (Qltb (data_max train - data_min train) (10 # 4503599627370496))
        eqn:E.
      * apply Qltb_lt in E. lra.
      * field. lra.
  - intros Hspread i x Hi. eexists. split.
    + unfold scaler_transform_column. rewrite nth_error_map, Hi. reflexivity.
    + rewrite scaled_any_value. unfold handle_zeros_in_scale.
      cbn [num_lt num_sub num_one num_ten_eps rational].
      rewrite (Qlt_ltb _ _ Hspread). field.
  - intros Hconst v Hv. unfold scaler_transform_column in Hv.
    apply in_map_iff in Hv. destruct Hv as [x [<- Hx]].
    rewrite scaled_any_value. rewrite (Hconst x Hx).
    set (h := handle_zeros_in_scale _) in *.
    field. intros Hz. rewrite Hz in Hh. apply (Qlt_irrefl 0). exact Hh.
Qed.

Lemma scaler_endpoints_witness :
  [1880; 1950; 2000] <> []
  /\ List.length (scaler_transform_column (scaler_fit_column [1880; 1950; 2000])
                                          [1880; 1950; 2000])
     = List.length [1880; 1950; 2000]
  /\ (exists v,
        In v (scaler_transform_column (scaler_fit_column [1880; 1950; 2000])
                                      [1880; 1950; 2000])
        /\ v == 0).
Proof.
  split.
  - discriminate.
  - destruct (scaler_endpoints [1880; 1950; 2000]) as [Hlen [Hzero _]].
    + discriminate.
    + split; [exact Hlen | exact Hzero].
Defined.

End ScalerBeyondTraining.

(** ** The one-hot encoder, category by category *)

Section EncoderBeyondCounting.

Lemma insert_string_head c v rest :
  HdRel (fun a b => String.leb a b = true) c rest ->
  String.leb c v = true ->
  HdRel (fun a b => String.leb a b = true) c (insert_string v rest).
Proof.
  intros Hhd Hcv. destruct rest as [| r rest']; simpl.
  - constructor. exact Hcv.
  - destruct (String.leb v r).
    + constructor. exact Hcv.
    + constructor. inversion Hhd. assumption.
Qed.

Lemma insert_string_sorted v l :
  Sorted (fun a b => String.leb a b = true) l ->
  Sorted (fun a b => String.leb a b = true) (insert_string v l).
Proof.
  induction l as [| c rest IH]; intros Hs; simpl.
  - constructor; constructor.
  - inversion Hs as [| ? ? Hrest Hhd]; subst.
    destruct (String.leb v c) eqn:E.
    + constructor; [exact Hs | constructor; exact E].
    + constructor; [apply IH; exact Hrest |].
      apply insert_string_head; [exact Hhd |].
      destruct (String.leb_total v c) as [Hvc | Hcv]; [congruence | exact Hcv].
Qed.

(** X16. The categories fitted on a column are exactly the values observed
    in it, each once, in ascending order. *)
Theorem categories_are_the_sorted_distinct_values (col : list string) :
  Sorted (fun a b => String.leb a b = true) (categories col)
  /\ NoDup (categories col)
  /\ (forall v, In v (categories col) <-> In v col)
  /\ List.length (categories col) = List.length (nodup string_dec col).
Proof.
  split; [| split; [| split]].
  - unfold categories. induction (nodup string_dec col) as [| v rest IH]; simpl.
    + constructor.
    + apply insert_string_sorted. exact IH.
  - eapply Permutation_NoDup; [apply Permutation_sym, categories_perm |].
    apply NoDup_nodup.
  - apply categories_In.
  - apply categories_length.
Qed.

Lemma index_of_Some v cats i :
  index_of v cats = Some i -> nth_error cats i = Some v.
Proof.
  revert i. induction cats as [| c rest IH]; intros i; simpl; [discriminate |].
  destruct (String.eqb c v) eqn:E.
  - intros Hi. inversion Hi. apply String.eqb_eq in E. subst. reflexivity.
  - destruct (index_of v rest) as [k |]; simpl; [| discriminate].
    intros Hi. inversion Hi. simpl. apply IH. reflexivity.
Qed.

Lemma index_of_In v cats : In v cats -> exists i, index_of v cats = Some i.
Proof.
  induction cats as [| c rest IH]; simpl; [tauto |].
  destruct (String.eqb c v) eqn:E; [eauto |].
  intros [Heq | Hin].
  - apply String.eqb_neq in E. congruence.
  - destruct (IH Hin) as [i ->]. simpl. eauto.
Qed.

Lemma index_of_zero v cats :
  index_of v cats = Some 0 -> hd_error cats = Some v.
Proof. intros Hi. apply index_of_Some in Hi. destruct cats; exact Hi. Qed.

Lemma seq_entry width j : j < width -> nth_error (seq 0 width) j = Some j.
Proof.
  intros Hj. rewrite nth_error_seq.
  apply Nat.ltb_lt in Hj. rewrite Hj. reflexivity.
Qed.

Lemma indicator_entry width i j :
  j < width ->
  nth j (indicator (A := Q) width (Some i)) 0%Q
  = if Nat.eqb i j then 1%Q else 0%Q.
Proof.
  intros Hj. unfold indicator. cbn [num_one num_zero rational].
  apply (nth_map_entry (fun k => if Nat.eqb i k then 1%Q else 0%Q)).
  apply seq_entry. exact Hj.
Qed.

Lemma indicator_none_entry width j :
  nth j (indicator (A := Q) width None) 0%Q = 0%Q.
Proof.
  unfold indicator. cbn [num_zero rational].
  destruct (Nat.lt_ge_cases j width) as [Hlt | Hge].
  - apply (nth_map_entry (fun _ : nat => 0%Q) (seq 0 width) j j).
    apply seq_entry. exact Hlt.
  - apply nth_overflow. rewrite length_map, length_seq. exact Hge.
Qed.

(** X17. A value seen at fit time that is not the dropped first category
    sets exactly one indicator: if it is category number i + 1 in the sorted
    list, entry i of its row is 1 and every other entry is 0. *)
Theorem seen_category_sets_its_own_indicator (fit_col : list string) (v : string) :
  In v fit_col ->
  hd_error (categories fit_col) <> Some v ->
  exists i,
    nth_error (categories fit_col) (S i) = Some v
    /\ i < List.length (encode (A := Q) (categories fit_col) v)
    /\ nth i (encode (categories fit_col) v) 0%Q = 1%Q
    /\ (forall j, j <> i -> nth j (encode (categories fit_col) v) 0%Q = 0%Q)
    /\ List.length (filter is_set (encode (categories fit_col) v)) = 1.
Proof.
  intros Hin Hfirst. apply categories_In in Hin.
  destruct (index_of_In _ _ Hin) as [k Hk].
  destruct k as [| i]; [apply index_of_zero in Hk; congruence |].
  pose proof (index_of_Some _ _ _ Hk) as Hnth.
  assert (Hi : i < List.length (categories fit_col) - 1).
  { assert (S i < List.length (categories fit_col))
      by (apply nth_error_Some; congruence). lia. }
  exists i. split; [exact Hnth |]. rewrite encode_length.
  split; [exact Hi |]. unfold encode. rewrite Hk.
  split; [| split].
  - rewrite indicator_entry by exact Hi. rewrite Nat.eqb_refl. reflexivity.
  - intros j Hj. destruct (Nat.lt_ge_cases j (List.length (categories fit_col) - 1))
      as [Hlt | Hge].
    + rewrite indicator_entry by exact Hlt.
      destruct (Nat.eqb i j) eqn:E; [| reflexivity].
      apply Nat.eqb_eq in E. congruence.
    + apply nth_overflow. rewrite indicator_length. exact Hge.
  - apply Nat.le_antisymm; [apply indicator_at_most_one |].
    assert (Hone : nth i (indicator (A := Q) (List.length (categories fit_col) - 1)
                                    (Some i)) 0%Q = 1%Q).
    { rewrite indicator_entry by exact Hi. rewrite Nat.eqb_refl. reflexivity. }
    assert (Hin1 : In (nth i (indicator (A := Q)
                                (List.length (categories fit_col) - 1) (Some i)) 0%Q)
                      (indicator (List.length (categories fit_col) - 1) (Some i))).
    { apply nth_In. rewrite indicator_length. exact Hi. }
    rewrite Hone in Hin1.
    assert (Hset : In 1%Q (filter is_set (indicator (A := Q)
                                            (List.length (categories fit_col) - 1)
                                            (Some i)))).
    { apply filter_In. split; [exact Hin1 | reflexivity]. }
    destruct (filter is_set _); [destruct Hset | simpl; lia].
Qed.

End EncoderBeyondCounting.

Section EncoderDecoding.

Lemma seen_category_sets_its_own_indicator_witness :
  (In "RL" ["RL"; "RH"; "FV"; "RL"]
   /\ hd_error (categories ["RL"; "RH"; "FV"; "RL"]) <> Some "RL")
  /\ exists i,
       nth_error (categories ["RL"; "RH"; "FV"; "RL"]) (S i) = Some "RL"
       /\ i < List.length (encode (A := Q) (categories ["RL"; "RH"; "FV"; "RL"]) "RL")
       /\ nth i (encode (categories ["RL"; "RH"; "FV"; "RL"]) "RL") 0%Q = 1%Q.
Proof.
  split.
  - split; [left; reflexivity | discriminate].
  - destruct (seen_category_sets_its_own_indicator ["RL"; "RH"; "FV"; "RL"] "RL")
      as [i [Hnth [Hlt [Hone _]]]].
    + left. reflexivity.
    + discriminate.
    + exists i. split; [exact Hnth |]. split; [exact Hlt | exact Hone].
Defined.

Lemma encode_of_index cats v k :
  index_of v cats = Some k ->
  encode (A := Q) cats v
  = match k with
    | 0 => indicator (List.length cats - 1) None
    | S i => indicator (List.length cats - 1) (Some i)
    end.
Proof. intros Hk. unfold encode. rewrite Hk. destruct k; reflexivity. Qed.

(** X18. The encoding can be read back: two values seen at fit time that
    get the same indicator row are the same value (the all-zero row is the
    dropped first category, a row with entry i set is category i + 1). *)
Theorem one_hot_rows_identify_seen_values (fit_col : list string) (v w : string) :
  In v fit_col -> In w fit_col ->
  encode (A := Q) (categories fit_col) v = encode (categories fit_col) w ->
  v = w.
Proof.
  intros Hv Hw Heq. apply categories_In in Hv, Hw.
  destruct (index_of_In _ _ Hv) as [a Ha]. destruct (index_of_In _ _ Hw) as [b Hb].
  pose proof (index_of_Some _ _ _ Ha) as Hva.
  pose proof (index_of_Some _ _ _ Hb) as Hwb.
  assert (Hbound : forall k u, nth_error (categories fit_col) (S k) = Some u ->
                               k < List.length (categories fit_col) - 1).
  { intros k u Hk.
    assert (S k < List.length (categories fit_col))
      by (apply nth_error_Some; congruence). lia. }
  rewrite (encode_of_index _ _ _ Ha), (encode_of_index _ _ _ Hb) in Heq.
  assert (Hab : a = b).
  { destruct a as [| i], b as [| j]; [reflexivity | | |].
    - pose proof (Hbound j w Hwb) as Hj.
      pose proof (indicator_entry _ j j Hj) as Hone.
      rewrite <- Heq, indicator_none_entry, Nat.eqb_refl in Hone. discriminate.
    - pose proof (Hbound i v Hva) as Hi.
      pose proof (indicator_entry _ i i Hi) as Hone.
      rewrite Heq, indicator_none_entry, Nat.eqb_refl in Hone. discriminate.
    - pose proof (Hbound i v Hva) as Hi.
      pose proof (indicator_entry _ i i Hi) as Hone.
      rewrite Heq, (indicator_entry _ j i Hi), Nat.eqb_refl in Hone.
      destruct (Nat.eqb j i) eqn:E; [| discriminate].
      apply Nat.eqb_eq in E. congruence. }
  subst b. congruence.
Qed.

Lemma one_hot_rows_identify_seen_values_witness :
  (In "RH" ["RL"; "RH"; "FV"] /\ In "RH" ["RL"; "RH"; "FV"]
   /\ encode (A := Q) (categories ["RL"; "RH"; "FV"]) "RH"
      = encode (categories ["RL"; "RH"; "FV"]) "RH")
  /\ "RH" = "RH".
Proof.
  split.
  - split; [right; left; reflexivity |].
    split; [right; left; reflexivity | reflexivity].
  - apply (one_hot_rows_identify_seen_values ["RL"; "RH"; "FV"] "RH" "RH").
    + right; left; reflexivity.
    + right; left; reflexivity.
    + reflexivity.
Defined.

End EncoderDecoding.

(** ** The shape of the transformed matrix (cells 14 and 15) *)

Section MatrixShape.

Lemma median_of_nothing : median (A := Q) [] = None.
Proof. reflexivity. Qed.

Lemma imputed_columns_count (cols : list (list (option Q))) :
  List.length (imputer_transform (imputer_fit cols) cols)
  = List.length (filter has_observation cols).
Proof.
  unfold imputer_transform, imputer_fit. rewrite combine_map_self.
  induction cols as [| col rest IH]; [reflexivity |].
  cbn [map flat_map filter fst snd]. rewrite length_app, IH.
  destruct (has_observation col) eqn:E.
  - apply has_observation_spec in E.
    destruct (median_total _ E) as [m ->]. reflexivity.
  - assert (Hobs : observed col = []).
    { destruct (observed col) eqn:Eo; [reflexivity |].
      assert (Ht : has_observation col = true)
        by (apply has_observation_spec; rewrite Eo; discriminate).
      congruence. }
    rewrite Hobs. reflexivity.
Qed.

Lemma scaler_transform_length (cols : list (list Q)) :
  List.length (scaler_transform (scaler_fit cols) cols) = List.length cols.
Proof. rewrite scaler_fit_then_transform. apply length_map. Qed.

Lemma encoder_columns_count (cols : list (list string)) :
  List.length (encoder_transform (A := Q) (encoder_fit cols) cols)
  = list_sum (map (fun c => List.length (nodup string_dec c) - 1) cols).
Proof.
  unfold encoder_transform, encoder_fit. rewrite combine_map_self.
  rewrite length_flat_map, map_map. f_equal. apply map_ext. intros c.
  cbn [fst snd]. unfold encoder_transform_column.
  rewrite length_map, length_seq, categories_length. reflexivity.
Qed.

(** X19. Fitted and applied to the same well-shaped data, the transformer
    returns a matrix of fixed shape: every column has one entry per row, and
    the number of columns is the number of numeric columns with an observed
    entry plus, for each categorical column, its number of distinct values
    less one. *)
Theorem design_matrix_shape (X : Features Q) (F : Fitted) :
  well_shaped X = true ->
  column_transformer_fit X = Ok F ->
  (forall col, In col (column_transformer_transform F X) ->
     List.length col = n_samples X)
  /\ List.length (column_transformer_transform F X)
     = List.length (filter has_observation (numerical X))
       + list_sum (map (fun c => List.length (nodup string_dec c) - 1)
                       (categorical X)).
Proof.
  intros Hshape Hfit.
  destruct (column_transformer_fit_inv X F Hfit) as [_ [Hstat [Hscal Hcat]]].
  unfold well_shaped in Hshape. apply andb_true_iff in Hshape.
  destruct Hshape as [Hnum Hcats]. rewrite forallb_forall in Hnum, Hcats.
  unfold column_transformer_transform, numerical_block, categorical_block.
  rewrite Hstat, Hscal, Hcat. split.
  - intros col Hcol. apply in_app_or in Hcol. destruct Hcol as [Hcol | Hcol].
    + rewrite scaler_fit_then_transform in Hcol. apply in_map_iff in Hcol.
      destruct Hcol as [c [<- Hc]]. unfold scaler_transform_column.
      rewrite length_map. apply imputed_column in Hc.
      destruct Hc as [m [c0 [Hc0 ->]]]. unfold fill_missing. rewrite length_map.
      apply Nat.eqb_eq. apply Hnum. exact Hc0.
    + unfold encoder_transform, encoder_fit in Hcol.
      rewrite combine_map_self in Hcol. apply in_flat_map in Hcol.
      destruct Hcol as [[cats c0] [Hpair Hcol]].
      apply in_map_iff in Hpair. destruct Hpair as [c0' [Heq Hc0]].
      inversion Heq; subst cats c0'. cbn [fst snd] in Hcol.
      unfold encoder_transform_column in Hcol. apply in_map_iff in Hcol.
      destruct Hcol as [j [<- _]]. rewrite length_map.
      apply Nat.eqb_eq. apply Hcats. exact Hc0.
  - rewrite length_app, scaler_transform_length, imputed_columns_count,
      encoder_columns_count. reflexivity.
Qed.

Lemma design_matrix_shape_witness :
  (well_shaped three_houses = true
   /\ column_transformer_fit three_houses = Ok (fitted_on three_houses))
  /\ (forall col,
        In col (column_transformer_transform (fitted_on three_houses) three_houses) ->
        List.length col = n_samples three_houses)
  /\ List.length (column_transformer_transform (fitted_on three_houses) three_houses)
     = List.length (filter has_observation (numerical three_houses))
       + list_sum (map (fun c => List.length (nodup string_dec c) - 1)
                       (categorical three_houses)).
Proof.
  split.
  - split; reflexivity.
  - apply (design_matrix_shape three_houses (fitted_on three_houses)); reflexivity.
Defined.

End MatrixShape.

(** ** The whole diagnostics section (cells 21 to 29) *)

Section WholeRun.

Variable str_float : Q -> string.
Variable linear_rainbow : RegressionResults -> result (Q * Q).
Variable linear_harvey_collier : RegressionResults -> nat -> result (Q * Q).
Variable jarque_bera : list Q -> result (Q * Q * Q * Q).
Variable breuschpagan_statistics : list Q -> matrix -> Q * Q * Q * Q.
Variable fitted : RegressionResults.
Variable df : matrix.

Local Abbreviation run :=
  (run_cell str_float linear_rainbow linear_harvey_collier jarque_bera
            breuschpagan_statistics fitted df).
Local Abbreviation output_of :=
  (cell_output str_float linear_rainbow linear_harvey_collier jarque_bera
               breuschpagan_statistics fitted df).

Lemma message_is_str e msg : message e = Some msg -> str_exn e = msg.
Proof. destruct e; simpl; intros H; inversion H; reflexivity. Qed.

Lemma printed_block_is_block title named :
  printed_block str_float title named = block str_float title named.
Proof. reflexivity. Qed.

Lemma guarded_cell_ends d out :
  d <> Rainbow -> exists text, run d out = (Ok tt, (out ++ text)%string).
Proof.
  intros Hd.
  destruct (returned linear_rainbow linear_harvey_collier jarque_bera
                     breuschpagan_statistics fitted df d) as [score | e] eqn:Hr.
  - eexists. apply cell_prints. exact Hr.
  - eexists. apply guarded_failure_is_printed; eassumption.
Qed.

Lemma guarded_cell_output d text out :
  d <> Rainbow -> output_of d = Some text ->
  run d out = (Ok tt, (out ++ text)%string).
Proof.
  intros Hd. unfold cell_output.
  destruct (returned linear_rainbow linear_harvey_collier jarque_bera
                     breuschpagan_statistics fitted df d) as [score | e] eqn:Hr.
  - intros Ht. inversion Ht. rewrite printed_block_is_block.
    apply cell_prints. exact Hr.
  - destruct (message e) as [msg |] eqn:Hm; simpl; intros Ht; inversion Ht.
    rewrite <- (message_is_str e msg Hm).
    apply guarded_failure_is_printed; assumption.
Qed.

(** X20. Once the Rainbow test returns, the diagnostics section always runs
    to its end, whatever the other three tests do, and keeps what was
    printed before it.  When each of the three guarded tests returns, or
    raises an exception whose [str] is its message (a [ValueError], a
    [TypeError] and the like, not a [KeyError]), the section prints the
    Rainbow block and then, in cell order, for each of Harvey Collier,
    Jarque-Bera and Breusch-Pagan either the block of its statistics or only
    the message of its exception, each followed by an empty line or a line
    feed. *)
Theorem diagnostics_run_to_the_end_once_rainbow_returns
    (rainbow_stats : Q * Q) (out : string) :
  linear_rainbow fitted = Ok rainbow_stats ->
  (exists text,
     diagnostics str_float linear_rainbow linear_harvey_collier jarque_bera
                 breuschpagan_statistics fitted df out
     = (Ok tt, (out ++ text)%string))
  /\ forall harvey jarque breusch,
       output_of HarveyCollier = Some harvey ->
       output_of JarqueBera = Some jarque ->
       output_of BreuschPagan = Some breusch ->
       diagnostics str_float linear_rainbow linear_harvey_collier jarque_bera
                   breuschpagan_statistics fitted df out
       = (Ok tt,
          (out ++ "Rainbow test:" ++ LF
               ++ "    score: " ++ str_float (fst rainbow_stats) ++ LF
               ++ "    p-value: " ++ str_float (snd rainbow_stats) ++ LF
               ++ LF
               ++ harvey ++ jarque ++ breusch)%string).
Proof.
  intros Hrainbow.
  assert (Hfirst : run Rainbow out
                   = (Ok tt, (out ++ block str_float "Rainbow"
                                     [("score", fst rainbow_stats);
                                      ("p-value", snd rainbow_stats)] ++ nl)%string)).
  { apply (cell_prints str_float linear_rainbow linear_harvey_collier jarque_bera
             breuschpagan_statistics fitted df Rainbow
             [fst rainbow_stats; snd rainbow_stats] out).
    cbn [returned]. rewrite Hrainbow. reflexivity. }
  split.
  - unfold diagnostics, io_bind. rewrite Hfirst.
    destruct (guarded_cell_ends HarveyCollier
                (out ++ block str_float "Rainbow"
                          [("score", fst rainbow_stats);
                           ("p-value", snd rainbow_stats)] ++ nl)%string)
      as [t1 H1]; [discriminate |].
    rewrite H1.
    destruct (guarded_cell_ends JarqueBera
                ((out ++ block str_float "Rainbow"
                           [("score", fst rainbow_stats);
                            ("p-value", snd rainbow_stats)] ++ nl) ++ t1)%string)
      as [t2 H2]; [discriminate |].
    rewrite H2.
    destruct (guarded_cell_ends BreuschPagan
                (((out ++ block str_float "Rainbow"
                            [("score", fst rainbow_stats);
                             ("p-value", snd rainbow_stats)] ++ nl) ++ t1) ++ t2)%string)
      as [t3 H3]; [discriminate |].
    rewrite H3. eexists. rewrite !append_assoc. reflexivity.
  - intros harvey jarque breusch Hh Hj Hb. unfold diagnostics, io_bind.
    rewrite Hfirst.
    rewrite (guarded_cell_output HarveyCollier harvey) by (discriminate || exact Hh).
    rewrite (guarded_cell_output JarqueBera jarque) by (discriminate || exact Hj).
    rewrite (guarded_cell_output BreuschPagan breusch) by (discriminate || exact Hb).
    unfold block, stat_line. cbn [map fst snd join fold_right].
    rewrite !append_assoc. reflexivity.
Qed.

End WholeRun.

Section WholeRunWitness.

Lemma diagnostics_run_to_the_end_once_rainbow_returns_witness :
  (fun _ : RegressionResults => Ok (1%Q, 0%Q)) sample_results = Ok (1%Q, 0%Q)
  /\ diagnostics show_sign (fun _ => Ok (1%Q, 0%Q))
       (fun _ _ => Raise (ValueError "singular"))
       (fun _ => Ok (1%Q, 0%Q, 1%Q, 1%Q))
       (fun _ _ => (1%Q, 0%Q, 1%Q, 0%Q)) sample_results [] ""
     = (Ok tt,
        ("" ++ "Rainbow test:" ++ LF
            ++ "    score: " ++ show_sign (fst (1%Q, 0%Q)) ++ LF
            ++ "    p-value: " ++ show_sign (snd (1%Q, 0%Q)) ++ LF
            ++ LF
            ++ ("singular" ++ LF)
            ++ ("Jarque-Bera test:" ++ LF
                ++ "    score: +" ++ LF
                ++ "    p-value: 0" ++ LF
                ++ "    skew: +" ++ LF
                ++ "    kurtosis: +" ++ LF
                ++ LF)
            ++ ("The Breusch-Pagan test requires exog to have at least two columns where one is a constant."
                ++ LF))%string).
Proof.
  split.
  - reflexivity.
  - apply (proj2 (diagnostics_run_to_the_end_once_rainbow_returns show_sign
                    (fun _ => Ok (1%Q, 0%Q)) (fun _ _ => Raise (ValueError "singular"))
                    (fun _ => Ok (1%Q, 0%Q, 1%Q, 1%Q))
                    (fun _ _ => (1%Q, 0%Q, 1%Q, 0%Q)) sample_results []
                    (1%Q, 0%Q) "" eq_refl)); reflexivity.
Defined.

End WholeRunWitness.

(** ** When the heteroskedasticity check lets a design through (cell 29) *)

Section HetCheckFacts.

Local Open Scope Q_scope.

Lemma column_extremes_inv (x : matrix) ext :
  column_extremes x = Some ext ->
  ext = map (fun col => (data_max col, data_min col)) x
  /\ forall col, In col x -> col <> [].
Proof.
  revert ext. induction x as [| col rest IH]; intros ext; simpl.
  - intros He. inversion He. split; [reflexivity | tauto].
  - destruct col as [| v col']; [discriminate |].
    destruct (column_extremes rest) as [ext' |]; [| discriminate].
    intros He. inversion He. destruct (IH ext' eq_refl) as [-> Hne].
    split; [reflexivity |].
    intros c [<- | Hc]; [discriminate | auto].
Qed.

Lemma column_extremes_total (x : matrix) :
  (forall col, In col x -> col <> []) ->
  column_extremes x = Some (map (fun col => (data_max col, data_min col)) x).
Proof.
  induction x as [| col rest IH]; intros Hne; simpl; [reflexivity |].
  rewrite IH by (intros c Hc; apply Hne; right; exact Hc).
  destruct col; [exfalso; apply (Hne []); [left |]; reflexivity | reflexivity].
Qed.

Lemma is_constant_column_spec (col : list Q) :
  col <> [] ->
  (is_constant_column (data_max col, data_min col) = true <-> constant_nonzero col).
Proof.
  intros Hne. unfold is_constant_column, constant_nonzero. cbn [fst snd].
  rewrite andb_true_iff, negb_true_iff. split.
  - intros [Hsame Hnz]. apply Qeq_bool_iff in Hsame.
    exists (data_max col). split.
    + intros Hz. apply Qeq_bool_iff in Hz. congruence.
    + intros v Hv. pose proof (data_min_le col v Hv).
      pose proof (data_max_ge col v Hv). lra.
  - intros [c [Hc Hall]].
    pose proof (Hall _ (data_max_In col Hne)) as Hmax.
    pose proof (Hall _ (data_min_In col Hne)) as Hmin.
    split.
    + apply Qeq_bool_iff. lra.
    + destruct (Qeq_bool (data_max col) 0) eqn:E; [| reflexivity].
      apply Qeq_bool_iff in E. exfalso. apply Hc. lra.
Qed.

(** X21. The Breusch-Pagan test returns its statistics exactly when the
    matrix it is given has at least two columns, no column without entries,
    and some column whose entries all equal one number other than zero; a
    column of zeros does not count as the constant. *)
Theorem breusch_pagan_returns_exactly_with_a_constant
    (breuschpagan_statistics : list Q -> matrix -> Q * Q * Q * Q)
    (residuals : list Q) (x : matrix) :
  het_breuschpagan breuschpagan_statistics residuals x
  = Ok (breuschpagan_statistics residuals x)
  <-> ((2 <= List.length x)%nat
       /\ (forall col, In col x -> col <> [])
       /\ exists col, In col x /\ constant_nonzero col).
Proof.
  unfold het_breuschpagan, check_het_test. split.
  - destruct (column_extremes x) as [ext |] eqn:He; [| discriminate].
    destruct (column_extremes_inv x ext He) as [-> Hne].
    destruct (existsb is_constant_column
                (map (fun col => (data_max col, data_min col)) x)) eqn:Hex;
      [| discriminate].
    destruct (Nat.ltb (List.length x) 2) eqn:Hlen; [discriminate |].
    intros _. apply Nat.ltb_ge in Hlen. split; [exact Hlen |].
    split; [exact Hne |].
    apply existsb_exists in Hex. destruct Hex as [e [Hin He']].
    apply in_map_iff in Hin. destruct Hin as [col [<- Hcol]].
    exists col. split; [exact Hcol |].
    apply is_constant_column_spec; [apply Hne; exact Hcol | exact He'].
  - intros [Hlen [Hne [col [Hcol Hconst]]]].
    rewrite (column_extremes_total x Hne).
    assert (Hex : existsb is_constant_column
                    (map (fun col => (data_max col, data_min col)) x) = true).
    { apply existsb_exists. exists (data_max col, data_min col). split.
      - apply (in_map (fun col => (data_max col, data_min col))). exact Hcol.
      - apply is_constant_column_spec; [apply Hne; exact Hcol | exact Hconst]. }
    rewrite Hex. apply Nat.ltb_ge in Hlen. rewrite Hlen. reflexivity.
Qed.

(** The sample design with a column of ones in front passes the check; a
    column of zeros in front does not. *)
Example intercept_column_passes :
  check_het_test ([1; 1; 1] :: [[1; 1 # 2; 0]; [1; 0; 1]]) "The Breusch-Pagan"
  = Ok tt
  /\ check_het_test ([0; 0; 0] :: [[1; 1 # 2; 0]; [1; 0; 1]]) "The Breusch-Pagan"
     = Raise (ValueError (het_message "The Breusch-Pagan")).
Proof. split; reflexivity. Qed.

End HetCheckFacts.

(** ** What the row filters and the recoding do at the edges *)

Section EdgeFacts.

Lemma lt_scalar_raises (s : series) bound t :
  In (Str t) s ->
  lt_scalar s bound
  = Raise (TypeError "'<' not supported between instances of 'str' and 'int'").
Proof.
  induction s as [| c rest IH]; intros Hin; [destruct Hin |].
  simpl. destruct Hin as [-> | Hin]; [reflexivity |].
  rewrite (IH Hin). destruct c; reflexivity.
Qed.

(** X22. The row filters of cell 5 raise instead of filtering when a column
    they read is not in the frame, KeyError of "Neighborhood" first and of
    "GrLivArea" second, and when a row that passes the neighbourhood test
    holds a string as living area, TypeError; a string in a row the
    neighbourhood test removes is never compared. *)
Theorem outlier_filters_raise_on_bad_frames (df : DataFrame) :
  (has_column "Neighborhood" df = false ->
   drop_outliers df = Raise (KeyError ["Neighborhood"]))
  /\ (has_column "Neighborhood" df = true -> has_column "GrLivArea" df = false ->
      drop_outliers df = Raise (KeyError ["GrLivArea"]))
  /\ (forall nb area t,
        getitem "Neighborhood" df = Ok nb -> getitem "GrLivArea" df = Ok area ->
        In (Str t) (select (map keeps_neighborhood nb) area) ->
        drop_outliers df
        = Raise (TypeError "'<' not supported between instances of 'str' and 'int'"))
  /\ (forall nb area,
        getitem "Neighborhood" df = Ok nb -> getitem "GrLivArea" df = Ok area ->
        (forall c, In c (select (map keeps_neighborhood nb) area) ->
           forall t, c <> Str t) ->
        exists out, drop_outliers df = Ok out).
Proof.
  unfold drop_outliers. split; [| split; [| split]].
  - intros Habsent. rewrite getitem_absent by exact Habsent. reflexivity.
  - intros Hnb Harea. destruct (has_column_getitem _ _ Hnb) as [nb ->].
    cbn [Py.bind]. rewrite getitem_loc_rows.
    rewrite getitem_absent by exact Harea. reflexivity.
  - intros nb area t Hnb Harea Hstr. rewrite Hnb. cbn [Py.bind].
    rewrite invert_isin, getitem_loc_rows, Harea. cbn [Py.bind].
    rewrite (lt_scalar_raises _ _ t Hstr). reflexivity.
  - intros nb area Hnb Harea Hnum. rewrite Hnb. cbn [Py.bind].
    rewrite invert_isin, getitem_loc_rows, Harea. cbn [Py.bind].
    destruct (lt_scalar_total _ living_area_bound Hnum) as [mask ->].
    cbn [Py.bind]. eauto.
Qed.

(** A string living area in an excluded neighbourhood goes unnoticed. *)
Example string_area_in_removed_row :
  drop_outliers [("Neighborhood", [Str "GrnHill"; Str "NAmes"]);
                 ("GrLivArea", [Str "n/a"; Num 1200])]
  = Ok [("Neighborhood", [Str "NAmes"]); ("GrLivArea", [Num 1200])].
Proof. reflexivity. Qed.

Lemma replace_cell_missing pairs : replace_cell pairs NaN = NaN.
Proof.
  apply replace_cell_unmapped. intros [k v] _. destruct k; reflexivity.
Qed.

(** X23. The recoding of cell 10 neither fills nor creates a missing value:
    in every column the entries that are missing after it are exactly the
    entries that were missing before it. *)
Theorem recoding_preserves_missingness
    (df : DataFrame) (j : nat) (name : string) (col : series) :
  nth_error df j = Some (name, col) ->
  exists col',
    nth_error (replace recoding df) j = Some (name, col')
    /\ map isna col' = map isna col.
Proof.
  intros Hj. unfold replace. rewrite nth_error_map, Hj. cbn [option_map].
  unfold replace_column. cbn [fst snd].
  destruct (lookup name recoding) as [pairs |] eqn:Hl.
  - exists (replace_list pairs col). split; [reflexivity |].
    unfold replace_list. rewrite map_map. apply map_ext. intros c.
    destruct c as [q | s | ].
    + pose proof (replace_cell_not_missing pairs (Num q)) as Hn.
      destruct (replace_cell pairs (Num q)); try reflexivity.
      exfalso. apply Hn; [| discriminate | reflexivity].
      apply (recoding_shape name pairs (lookup_In _ _ _ Hl)).
    + pose proof (replace_cell_not_missing pairs (Str s)) as Hn.
      destruct (replace_cell pairs (Str s)); try reflexivity.
      exfalso. apply Hn; [| discriminate | reflexivity].
      apply (recoding_shape name pairs (lookup_In _ _ _ Hl)).
    + rewrite replace_cell_missing. reflexivity.
  - exists col. split; reflexivity.
Qed.

Lemma recoding_preserves_missingness_witness :
  nth_error raw_frame 7 = Some ("Alley", [NaN; Str "None"; NaN; NaN; NaN])
  /\ exists col',
       nth_error (replace recoding raw_frame) 7 = Some ("Alley", col')
       /\ map isna col' = map isna [NaN; Str "None"; NaN; NaN; NaN].
Proof.
  split.
  - reflexivity.
  - apply (recoding_preserves_missingness raw_frame 7 "Alley"
             [NaN; Str "None"; NaN; NaN; NaN]).
    reflexivity.
Defined.

End EdgeFacts.
